(** * FoodGI: the authentication service, the auth context and the
      navigation gate

    A shallow embedding of [src/services/authService.js],
    [src/contexts/AuthContext.js] and [src/navigation/AppNavigator.js],
    and of the handlers of the registration, password-reset and home
    screens that call them.

    The three SDK clients the service talks to (Firebase Authentication,
    the Firestore [users] collection and AsyncStorage) are not part of the
    repository.  They are modelled here as a small reference backend: a
    world holding the identity provider's accounts and live identity, the
    profile documents, the local key-value store, and for every client a
    script that says how the next calls are answered (served, rejected
    with an error or, for the shared profile store, served after another
    client has written).  Every asynchronous function of the source becomes a
    computation in a state-and-exception monad over that world; [await]
    is sequencing, [try/catch] is [try_catch]. *)

From stdpp Require Import base option list strings gmap fin_maps.

Local Open Scope string_scope.

(** ** JavaScript values and plain objects *)

Module Js.

(** The values that occur in profile objects.  [undefined] is not a
    value here: a property that is [undefined] is an absent key. *)
Inductive value :=
| VNull
| VBool (b : bool)
| VNum (n : Z)
| VStr (s : string)
| VTimestamp (t : nat)        (* a Firestore Timestamp read back from the server *)
| VServerTimestamp.           (* the sentinel firestore.FieldValue.serverTimestamp() *)

#[export] Instance value_eq_dec : EqDecision value.
Proof. solve_decision. Defined.

(** A plain object: property name to value. *)
Abbreviation obj := (gmap string value).

(** [ToBoolean] on a possibly undefined value. *)
Definition truthy (v : option value) : bool :=
  match v with
  | None | Some VNull => false
  | Some (VBool b) => b
  | Some (VNum n) => negb (Z.eqb n 0)
  | Some (VStr s) => negb (String.eqb s "")
  | Some (VTimestamp _) | Some VServerTimestamp => true
  end.

(** [v || d] where [d] is a defined value. *)
Definition or_else (v : option value) (d : value) : value :=
  match v with
  | Some x => if truthy v then x else d
  | None => d
  end.

(** An object literal [{ k1: v1, ..., kn: vn }] with distinct keys. *)
Definition literal (fields : list (string * value)) : obj :=
  list_to_map fields.

(** An object literal some of whose property values may be [undefined];
    such properties are dropped by [JSON.stringify], the only consumer
    of these literals. *)
Definition defined_fields (fields : list (string * option value)) : obj :=
  list_to_map (omap (λ kv, pair kv.1 <$> kv.2) fields).

(** [{ ...a, ...b }]: the properties of [b] win. *)
Definition spread (a b : obj) : obj := b ∪ a.

(** [...x] where [x] may be [null]: spreading [null] adds nothing. *)
Definition nullable (x : option obj) : obj := default ∅ x.

(** A string held by AsyncStorage: either the text [JSON.stringify o]
    of a plain object [o], kept symbolically, or some other text (a
    token, say) that is not a JSON document. *)
Inductive str :=
| Text (s : string)
| Json (o : obj).

#[export] Instance str_eq_dec : EqDecision str.
Proof. solve_decision. Defined.

(** Truthiness of a string: the text of an object is never empty. *)
Definition nonempty (s : str) : bool :=
  match s with
  | Text t => negb (String.eqb t "")
  | Json _ => true
  end.

(* Object literals are compared as they are written, not as tries. *)
Global Arguments literal : simpl never.
Global Arguments defined_fields : simpl never.
Global Arguments spread : simpl never.

End Js.
Import Js.

(** ** Errors, results and the monad *)

(** What a rejected promise carries: a plain [new Error(message)] raised
    by the service itself, or an error of an SDK client, identified by its
    code ("auth/wrong-password", "firestore/unavailable", ...). *)
Inductive error :=
| Error (message : string)
| SdkError (code : string).

#[export] Instance error_eq_dec : EqDecision error.
Proof. solve_decision. Defined.

(** [err.message] *)
Definition message (e : error) : string :=
  match e with
  | Error m => m
  | SdkError c => c
  end.

Inductive result (A : Type) :=
| Ok (a : A)
| Err (e : error).
Arguments Ok {A} a.
Arguments Err {A} e.

(** An [async] function over a state [S]: it resolves with a value or
    rejects with an error, and leaves a new state either way. *)
Definition M (S A : Type) : Type := S → result A * S.

Definition ret {S A} (a : A) : M S A := λ s, (Ok a, s).

Definition throw {S A} (e : error) : M S A := λ s, (Err e, s).

Definition bind {S A B} (m : M S A) (k : A → M S B) : M S B :=
  λ s, match m s with
       | (Ok a, s') => k a s'
       | (Err e, s') => (Err e, s')
       end.

(** [try { body } catch (error) { handler }] *)
Definition try_catch {S A} (body : M S A) (handler : error → M S A) : M S A :=
  λ s, match body s with
       | (Ok a, s') => (Ok a, s')
       | (Err e, s') => handler e s'
       end.

(** [try { body } finally { final }], for a [final] block that cannot
    itself throw (it is a state update). *)
Definition try_finally {S A} (body : M S A) (final : S → S) : M S A :=
  λ s, let '(r, s') := body s in (r, final s').

(** A state update that cannot fail. *)
Definition modify {S} (f : S → S) : M S unit := λ s, (Ok (), f s).

Definition gets {S A} (f : S → A) : M S A := λ s, (Ok (f s), s).

Declare Scope async_scope.
Delimit Scope async_scope with async.
Notation "'let!' x ':=' m 'in' k" := (bind m (λ x, k))
  (at level 10, x binder, m at level 100, k at level 200) : async_scope.
Notation "m ';;' k" := (bind m (λ _, k))
  (at level 100, k at level 200, right associativity) : async_scope.
Local Open Scope async_scope.

(** ** The world: the three SDK clients *)

(** A Firebase user object, as far as the service reads it.  [email] is
    [null] for identities without an e-mail address. *)
Record user := mkUser {
  uid : string;
  email : option string }.

#[export] Instance user_eq_dec : EqDecision user.
Proof. solve_decision. Defined.

(** [user.email] as a property value. *)
Definition email_value (u : user) : value :=
  match email u with
  | Some e => VStr e
  | None => VNull
  end.

(** An account of the identity provider, stored under its e-mail. *)
Record account := mkAccount {
  acc_uid : string;
  acc_password : string }.

#[export] Instance account_eq_dec : EqDecision account.
Proof. solve_decision. Defined.

(** How the profile store answers its next call: it serves it, rejects it
    (network down, permission denied, ...), or serves it after another
    client of the shared store has replaced ([Some]) or deleted ([None])
    a document. *)
Inductive fs_step :=
| Served
| Rejected (e : error)
| Elsewhere (id : string) (d : option obj).

(** The external calls, in the order they are issued. *)
Inductive call :=
| CreateUser (email password : string)
| SignIn (email password : string)
| SignOut
| GetIdToken (id : string)
| SendPasswordResetEmail (email : string)
| Reauthenticate (email password : string)
| UpdatePassword (password : string)
| DocSet (id : string) (data : obj)
| DocUpdate (id : string) (data : obj)
| DocGet (id : string)
| SetItem (key : string) (v : str)
| GetItem (key : string)
| RemoveItem (key : string).

#[export] Instance call_eq_dec : EqDecision call.
Proof. solve_decision. Defined.

Record World := mkWorld {
  (* identity provider *)
  accounts : gmap string account;
  currentUser : option user;            (* auth().currentUser *)
  auth_env : list (option error);       (* [Some e]: the next call is rejected with [e] *)
  (* profile store: the [users] collection *)
  docs : gmap string obj;
  clock : nat;                          (* the server's time *)
  fs_env : list fs_step;
  (* AsyncStorage *)
  storage : gmap string str;
  storage_env : list (option error);
  (* what was called, oldest first, and what was logged *)
  trace : list call;
  console : list (string * error) }.

Definition set_accounts (a : gmap string account) (w : World) : World :=
  mkWorld a (currentUser w) (auth_env w) (docs w) (clock w) (fs_env w)
          (storage w) (storage_env w) (trace w) (console w).
Definition set_currentUser (u : option user) (w : World) : World :=
  mkWorld (accounts w) u (auth_env w) (docs w) (clock w) (fs_env w)
          (storage w) (storage_env w) (trace w) (console w).
Definition set_auth_env (l : list (option error)) (w : World) : World :=
  mkWorld (accounts w) (currentUser w) l (docs w) (clock w) (fs_env w)
          (storage w) (storage_env w) (trace w) (console w).
Definition set_docs (d : gmap string obj) (w : World) : World :=
  mkWorld (accounts w) (currentUser w) (auth_env w) d (clock w) (fs_env w)
          (storage w) (storage_env w) (trace w) (console w).
Definition set_clock (t : nat) (w : World) : World :=
  mkWorld (accounts w) (currentUser w) (auth_env w) (docs w) t (fs_env w)
          (storage w) (storage_env w) (trace w) (console w).
Definition set_fs_env (l : list fs_step) (w : World) : World :=
  mkWorld (accounts w) (currentUser w) (auth_env w) (docs w) (clock w) l
          (storage w) (storage_env w) (trace w) (console w).
Definition set_storage (s : gmap string str) (w : World) : World :=
  mkWorld (accounts w) (currentUser w) (auth_env w) (docs w) (clock w) (fs_env w)
          s (storage_env w) (trace w) (console w).
Definition set_storage_env (l : list (option error)) (w : World) : World :=
  mkWorld (accounts w) (currentUser w) (auth_env w) (docs w) (clock w) (fs_env w)
          (storage w) l (trace w) (console w).
Definition set_trace (t : list call) (w : World) : World :=
  mkWorld (accounts w) (currentUser w) (auth_env w) (docs w) (clock w) (fs_env w)
          (storage w) (storage_env w) t (console w).
Definition set_console (c : list (string * error)) (w : World) : World :=
  mkWorld (accounts w) (currentUser w) (auth_env w) (docs w) (clock w) (fs_env w)
          (storage w) (storage_env w) (trace w) c.

(** Every external call is recorded before it is answered. *)
Definition record (c : call) (w : World) : World :=
  set_trace (trace w ++ [c]) w.

(** [console.error(label, error)] *)
Definition console_error (label : string) (e : error) : M World unit :=
  modify (λ w, set_console (console w ++ [(label, e)]) w).

(** *** Firebase Authentication *)

Module Auth.

(** One call to the identity provider: recorded, then rejected if the
    script says so, else served.  An exhausted script serves. *)
Definition request {A} (c : call) (serve : M World A) : M World A :=
  λ w, let w := record c w in
       match auth_env w with
       | Some e :: rest => (Err e, set_auth_env rest w)
       | None :: rest => serve (set_auth_env rest w)
       | [] => serve w
       end.

(** The identifier the provider gives a new account. *)
Definition fresh_uid (email : string) : string := "uid:" ++ email.

(** Creates the account and signs the new user in. *)
Definition createUserWithEmailAndPassword (email password : string) : M World user :=
  request (CreateUser email password) (λ w,
    match accounts w !! email with
    | Some _ => (Err (SdkError "auth/email-already-in-use"), w)
    | None =>
        let u := mkUser (fresh_uid email) (Some email) in
        (Ok u, set_currentUser (Some u)
                 (set_accounts (<[email := mkAccount (uid u) password]> (accounts w)) w))
    end).

Definition signInWithEmailAndPassword (email password : string) : M World user :=
  request (SignIn email password) (λ w,
    match accounts w !! email with
    | None => (Err (SdkError "auth/user-not-found"), w)
    | Some a =>
        if String.eqb (acc_password a) password
        then let u := mkUser (acc_uid a) (Some email) in
             (Ok u, set_currentUser (Some u) w)
        else (Err (SdkError "auth/wrong-password"), w)
    end).

Definition signOut : M World unit :=
  request SignOut (λ w, (Ok (), set_currentUser None w)).

(** [user.getIdToken()]: an opaque token for the identity. *)
Definition getIdToken (u : user) : M World string :=
  request (GetIdToken (uid u)) (ret ("jwt:" ++ uid u)).

Definition sendPasswordResetEmail (email : string) : M World unit :=
  request (SendPasswordResetEmail email) (λ w,
    match accounts w !! email with
    | None => (Err (SdkError "auth/user-not-found"), w)
    | Some _ => (Ok (), w)
    end).

(** [auth.EmailAuthProvider.credential(email, password)] *)
Definition credential (email password : string) : string * string :=
  (email, password).

(** [currentUser.reauthenticateWithCredential(credential)] *)
Definition reauthenticateWithCredential (u : user) (cred : string * string) : M World unit :=
  request (Reauthenticate cred.1 cred.2) (λ w,
    match accounts w !! cred.1 with
    | None => (Err (SdkError "auth/user-mismatch"), w)
    | Some a =>
        if String.eqb (acc_uid a) (uid u) && String.eqb (acc_password a) cred.2
        then (Ok (), w)
        else (Err (SdkError "auth/wrong-password"), w)
    end).

(** [currentUser.updatePassword(newPassword)] *)
Definition updatePassword (u : user) (newPassword : string) : M World unit :=
  request (UpdatePassword newPassword) (λ w,
    match email u with
    | None => (Err (SdkError "auth/requires-recent-login"), w)
    | Some e =>
        match accounts w !! e with
        | None => (Err (SdkError "auth/user-not-found"), w)
        | Some a =>
            (Ok (), set_accounts (<[e := mkAccount (acc_uid a) newPassword]> (accounts w)) w)
        end
    end).

End Auth.

(** *** Firestore: the [users] collection *)

Module Firestore.

(** The server replaces the [serverTimestamp()] sentinel by its time. *)
Definition stamp (now : nat) (v : value) : value :=
  match v with
  | VServerTimestamp => VTimestamp now
  | _ => v
  end.

Definition request {A} (c : call) (serve : M World A) : M World A :=
  λ w, let w := record c w in
       match fs_env w with
       | Rejected e :: rest => (Err e, set_fs_env rest w)
       | Served :: rest => serve (set_fs_env rest w)
       | Elsewhere id (Some d) :: rest =>
           serve (set_docs (<[id := d]> (docs w)) (set_fs_env rest w))
       | Elsewhere id None :: rest =>
           serve (set_docs (delete id (docs w)) (set_fs_env rest w))
       | [] => serve w
       end.

(** [collection('users').doc(id).set(data)]: creates or overwrites. *)
Definition set (id : string) (data : obj) : M World unit :=
  request (DocSet id data) (λ w,
    (Ok (), set_clock (S (clock w))
              (set_docs (<[id := stamp (clock w) <$> data]> (docs w)) w))).

(** [collection('users').doc(id).update(data)]: merges into an existing
    document, and is rejected when there is none. *)
Definition update (id : string) (data : obj) : M World unit :=
  request (DocUpdate id data) (λ w,
    match docs w !! id with
    | None => (Err (SdkError "firestore/not-found"), w)
    | Some old =>
        (Ok (), set_clock (S (clock w))
                  (set_docs (<[id := (stamp (clock w) <$> data) ∪ old]> (docs w)) w))
    end).

(** [collection('users').doc(id).get()]: the snapshot, [None] when
    [exists] is false and [Some (data ())] otherwise. *)
Definition get (id : string) : M World (option obj) :=
  request (DocGet id) (gets (λ w, docs w !! id)).

End Firestore.

(** *** AsyncStorage *)

Module AsyncStorage.

Definition request {A} (c : call) (serve : M World A) : M World A :=
  λ w, let w := record c w in
       match storage_env w with
       | Some e :: rest => (Err e, set_storage_env rest w)
       | None :: rest => serve (set_storage_env rest w)
       | [] => serve w
       end.

Definition setItem (key : string) (v : str) : M World unit :=
  request (SetItem key v) (modify (λ w, set_storage (<[key := v]> (storage w)) w)).

(** Resolves with [null] when the key is absent. *)
Definition getItem (key : string) : M World (option str) :=
  request (GetItem key) (gets (λ w, storage w !! key)).

Definition removeItem (key : string) : M World unit :=
  request (RemoveItem key) (modify (λ w, set_storage (delete key (storage w)) w)).

End AsyncStorage.

(** [JSON.stringify] of a plain object, and [JSON.parse], which throws a
    [SyntaxError] on text that is not a JSON document. *)
Definition JSON_stringify (o : obj) : str := Json o.

Definition JSON_parse {S} (s : str) : M S obj :=
  match s with
  | Json o => ret o
  | Text _ => throw (Error "SyntaxError: JSON Parse error")
  end.

(** ** src/services/authService.js *)

Definition USER_DATA_KEY : string := "@GI Tracker:userData".
Definition AUTH_TOKEN_KEY : string := "@GI Tracker:authToken".

Module AuthService.

(** The profile document [register] writes. *)
Definition profile_document (email : string) (userData : obj) : obj :=
  literal [ ("email", VStr email);
            ("name", or_else (userData !! "name") (VStr ""));
            ("birthdate", or_else (userData !! "birthdate") VNull);
            ("diabetesType", or_else (userData !! "diabetesType") (VStr ""));
            ("createdAt", VServerTimestamp);
            ("lastLoginAt", VServerTimestamp) ].

Definition register (email password : string) (userData : obj) : M World user :=
  try_catch
    (let! user := Auth.createUserWithEmailAndPassword email password in
     Firestore.set (uid user) (profile_document email userData) ;;
     let userToStore :=
       spread (literal [ ("uid", VStr (uid user)); ("email", email_value user) ])
              userData in
     AsyncStorage.setItem USER_DATA_KEY (JSON_stringify userToStore) ;;
     ret user)
    (λ error,
       console_error "Registration error:" error ;;
       throw error).

Definition login (email password : string) : M World user :=
  try_catch
    (let! user := Auth.signInWithEmailAndPassword email password in
     Firestore.update (uid user) (literal [ ("lastLoginAt", VServerTimestamp) ]) ;;
     let! userDoc := Firestore.get (uid user) in
     match userDoc with
     | Some userData =>
         AsyncStorage.setItem USER_DATA_KEY
           (JSON_stringify
              (spread (literal [ ("uid", VStr (uid user)); ("email", email_value user) ])
                      (defined_fields [ ("name", userData !! "name");
                                        ("birthdate", userData !! "birthdate");
                                        ("diabetesType", userData !! "diabetesType") ])))
     | None => ret ()
     end ;;
     let! token := Auth.getIdToken user in
     AsyncStorage.setItem AUTH_TOKEN_KEY (Text token) ;;
     ret user)
    (λ error,
       console_error "Login error:" error ;;
       throw error).

Definition logout : M World unit :=
  try_catch
    (Auth.signOut ;;
     AsyncStorage.removeItem USER_DATA_KEY ;;
     AsyncStorage.removeItem AUTH_TOKEN_KEY)
    (λ error,
       console_error "Logout error:" error ;;
       throw error).

Definition isAuthenticated : M World bool :=
  try_catch
    (let! currentUser := gets currentUser in
     match currentUser with
     | Some _ => ret true
     | None =>
         let! token := AsyncStorage.getItem AUTH_TOKEN_KEY in
         ret (bool_decide (token ≠ None))
     end)
    (λ error,
       console_error "Authentication check error:" error ;;
       ret false).

Definition getCurrentUser : M World (option obj) :=
  try_catch
    (let! currentUser := gets currentUser in
     let! live :=
       match currentUser with
       | Some currentUser =>
           let! userDoc := Firestore.get (uid currentUser) in
           match userDoc with
           | Some data =>
               ret (Some (spread (literal [ ("uid", VStr (uid currentUser));
                                            ("email", email_value currentUser) ])
                                 data))
           | None => ret None
           end
       | None => ret None
       end in
     match live with
     | Some session => ret (Some session)
     | None =>
         let! userDataString := AsyncStorage.getItem USER_DATA_KEY in
         match userDataString with
         | Some s =>
             if nonempty s
             then let! parsed := JSON_parse s in ret (Some parsed)
             else ret None
         | None => ret None
         end
     end)
    (λ error,
       console_error "Get current user error:" error ;;
       ret None).

Definition updateUserProfile (userData : obj) : M World unit :=
  try_catch
    (let! currentUser := gets currentUser in
     match currentUser with
     | None => throw (Error "No authenticated user found")
     | Some currentUser =>
         Firestore.update (uid currentUser)
           (spread userData (literal [ ("updatedAt", VServerTimestamp) ])) ;;
         let! storedUserData := getCurrentUser in
         AsyncStorage.setItem USER_DATA_KEY
           (JSON_stringify (spread (nullable storedUserData) userData))
     end)
    (λ error,
       console_error "Update profile error:" error ;;
       throw error).

Definition resetPassword (email : string) : M World unit :=
  try_catch
    (Auth.sendPasswordResetEmail email)
    (λ error,
       console_error "Password reset error:" error ;;
       throw error).

Definition reauthenticate (password : string) : M World bool :=
  try_catch
    (let! currentUser := gets currentUser in
     (* [!currentUser || !currentUser.email]: no live identity, or its
        e-mail is [null] or the empty string *)
     match currentUser with
     | None => throw (Error "No authenticated user found or email is missing")
     | Some currentUser =>
         match email currentUser with
         | None => throw (Error "No authenticated user found or email is missing")
         | Some email =>
             if String.eqb email ""
             then throw (Error "No authenticated user found or email is missing")
             else
               let credential := Auth.credential email password in
               Auth.reauthenticateWithCredential currentUser credential ;;
               ret true
         end
     end)
    (λ error,
       console_error "Reauthentication error:" error ;;
       ret false).

Definition changePassword (currentPassword newPassword : string) : M World bool :=
  try_catch
    (let! reauthenticated := reauthenticate currentPassword in
     if negb reauthenticated
     then throw (Error "Failed to reauthenticate user")
     else
       let! currentUser := gets currentUser in
       match currentUser with
       | Some currentUser =>
           Auth.updatePassword currentUser newPassword ;;
           ret true
       | None =>
           throw (Error "TypeError: Cannot read property 'updatePassword' of null")
       end)
    (λ error,
       console_error "Change password error:" error ;;
       throw error).

End AuthService.

(** A world in which nothing has happened yet and every call is served. *)
Definition empty_world : World :=
  mkWorld ∅ None [] ∅ 0 [] ∅ [] [] [].

(** ** src/contexts/AuthContext.js *)

Module AuthContext.

(** The three [useState] cells of [AuthProvider]. *)
Record state := mkState {
  currentUser : option obj;       (* [null], or the session object *)
  loading : bool;
  error : option string }.

(** The initial values passed to [useState]. *)
Definition initial : state := mkState None true None.

(** The provider together with the world its service calls act on. *)
Abbreviation App := (state * World)%type.

Definition setCurrentUser (f : option obj → option obj) : M App unit :=
  modify (λ a, (mkState (f (currentUser a.1)) (loading a.1) (error a.1), a.2)).

Definition setLoading (b : bool) : App → App :=
  λ a, (mkState (currentUser a.1) b (error a.1), a.2).

Definition setError (e : option string) : M App unit :=
  modify (λ a, (mkState (currentUser a.1) (loading a.1) e, a.2)).

(** A call into [authService]. *)
Definition service {A} (m : M World A) : M App A :=
  λ a, let '(r, w) := m a.2 in (r, (a.1, w)).

(** The own enumerable properties of a Firebase user object, as far as
    the model knows them. *)
Definition user_object (u : user) : obj :=
  literal [ ("uid", VStr (uid u)); ("email", email_value u) ].

(** The callback [setupAuthListener] hands to [auth().onAuthStateChanged]:
    the provider calls it with the signed-in user, or with [null]. *)
Definition onAuthStateChanged (user : option user) : M App unit :=
  match user with
  | Some user =>
      try_catch
        (let! userData := service AuthService.getCurrentUser in
         setCurrentUser (λ _, userData))
        (λ err,
           setCurrentUser (λ _, Some (user_object user)) ;;
           service (console_error "Error getting user data:" err))
  | None => setCurrentUser (λ _, None)
  end ;;
  modify (setLoading false).

Definition register (email password : string) (userData : obj) : M App user :=
  modify (setLoading true) ;;
  setError None ;;
  try_finally
    (try_catch
       (let! user := service (AuthService.register email password userData) in
        ret user)
       (λ err, setError (Some (message err)) ;; throw err))
    (setLoading false).

Definition login (email password : string) : M App user :=
  modify (setLoading true) ;;
  setError None ;;
  try_finally
    (try_catch
       (let! user := service (AuthService.login email password) in
        ret user)
       (λ err, setError (Some (message err)) ;; throw err))
    (setLoading false).

Definition logout : M App unit :=
  modify (setLoading true) ;;
  setError None ;;
  try_finally
    (try_catch
       (service AuthService.logout)
       (λ err, setError (Some (message err)) ;; throw err))
    (setLoading false).

Definition resetPassword (email : string) : M App unit :=
  modify (setLoading true) ;;
  setError None ;;
  try_finally
    (try_catch
       (service (AuthService.resetPassword email))
       (λ err, setError (Some (message err)) ;; throw err))
    (setLoading false).

Definition updateProfile (userData : obj) : M App unit :=
  modify (setLoading true) ;;
  setError None ;;
  try_finally
    (try_catch
       (service (AuthService.updateUserProfile userData) ;;
        setCurrentUser (λ prevUser, Some (spread (nullable prevUser) userData)))
       (λ err, setError (Some (message err)) ;; throw err))
    (setLoading false).

Definition changePassword (currentPassword newPassword : string) : M App bool :=
  modify (setLoading true) ;;
  setError None ;;
  try_finally
    (try_catch
       (let! success := service (AuthService.changePassword currentPassword newPassword) in
        ret success)
       (λ err, setError (Some (message err)) ;; throw err))
    (setLoading false).

(** [value.isAuthenticated = () => !!currentUser] *)
Definition isAuthenticated (s : state) : bool :=
  match currentUser s with
  | Some _ => true
  | None => false
  end.

(** What can happen to the provider: the identity provider delivers an
    identity change, or a screen calls one of the functions of [value]. *)
Inductive event :=
| AuthStateChanged (user : option user)
| Register (email password : string) (userData : obj)
| Login (email password : string)
| Logout
| ResetPassword (email : string)
| UpdateProfile (userData : obj)
| ChangePassword (currentPassword newPassword : string).

(** The provider after an event; a rejection reaches the calling screen
    and is not part of the provider's state. *)
Definition step (ev : event) (a : App) : App :=
  match ev with
  | AuthStateChanged user => (onAuthStateChanged user a).2
  | Register email password userData => (register email password userData a).2
  | Login email password => (login email password a).2
  | Logout => (logout a).2
  | ResetPassword email => (resetPassword email a).2
  | UpdateProfile userData => (updateProfile userData a).2
  | ChangePassword currentPassword newPassword =>
      (changePassword currentPassword newPassword a).2
  end.

Definition run (evs : list event) (a : App) : App :=
  foldl (λ a ev, step ev a) a evs.

End AuthContext.

(** ** src/navigation/AppNavigator.js *)

Module AppNavigator.

Inductive screens :=
| LoadingIndicator      (* the ActivityIndicator view *)
| AppStack              (* the signed-in tree: Home *)
| AuthNavigator.        (* Login, Register, ForgotPassword *)

(** What [AppNavigator] renders for the context value it reads through
    [useAuth()] and its own [initializing] cell. *)
Definition render (initializing : bool) (s : AuthContext.state) : screens :=
  if initializing || AuthContext.loading s then LoadingIndicator
  else match AuthContext.currentUser s with
       | Some _ => AppStack
       | None => AuthNavigator
       end.

End AppNavigator.

(** ** Strings on the screens: whitespace, [trim], regular expressions

    A string is read as its sequence of UTF-16 code units, each below
    256 (the characters of Latin-1). *)

Module JsString.

(** The white space and line terminators of ECMAScript among them: tab,
    line feed, vertical tab, form feed, carriage return, space and the
    no-break space.  These are what [\s] matches and what [trim] strips. *)
Definition is_space (c : Ascii.ascii) : bool :=
  match Ascii.nat_of_ascii c with
  | 9 | 10 | 11 | 12 | 13 | 32 | 160 => true
  | _ => false
  end.

(** [s.trimStart()] *)
Fixpoint trimStart (s : string) : string :=
  match s with
  | String c s' => if is_space c then trimStart s' else s
  | EmptyString => EmptyString
  end.

(** [s.trim()] *)
Definition trim (s : string) : string :=
  String.rev (trimStart (String.rev (trimStart s))).

(** [!s.trim()]: nothing is left of [s]. *)
Definition blank (s : string) : bool := String.eqb (trim s) "".

(** Every code unit of the string satisfies [p]. *)
Fixpoint all_chars (p : Ascii.ascii → bool) (s : string) : bool :=
  match s with
  | String c s' => p c && all_chars p s'
  | EmptyString => true
  end.

(** Regular expressions, as far as the screens use them. *)
Inductive re :=
| Void
| Eps
| Class (p : Ascii.ascii → bool)        (* one code unit of a class *)
| Seq (a b : re)
| Alt (a b : re)
| Star (a : re).

(** [a+] *)
Definition Plus (a : re) : re := Seq a (Star a).

(** A literal code unit. *)
Definition Char (c : Ascii.ascii) : re := Class (Ascii.eqb c).

(** The strings an expression matches from its first to its last code
    unit, which is what [^...$] asks of [test]. *)
Inductive lang : re → string → Prop :=
| lang_eps : lang Eps ""
| lang_class p c : p c = true → lang (Class p) (String c "")
| lang_seq a b s t : lang a s → lang b t → lang (Seq a b) (s ++ t)
| lang_alt_l a b s : lang a s → lang (Alt a b) s
| lang_alt_r a b s : lang b s → lang (Alt a b) s
| lang_star_nil a : lang (Star a) ""
| lang_star_cons a s t : lang a s → lang (Star a) t → lang (Star a) (s ++ t).

Fixpoint nullable (r : re) : bool :=
  match r with
  | Void | Class _ => false
  | Eps | Star _ => true
  | Seq a b => nullable a && nullable b
  | Alt a b => nullable a || nullable b
  end.

(** What is left to match after the code unit [c]. *)
Fixpoint deriv (c : Ascii.ascii) (r : re) : re :=
  match r with
  | Void | Eps => Void
  | Class p => if p c then Eps else Void
  | Seq a b =>
      if nullable a then Alt (Seq (deriv c a) b) (deriv c b)
      else Seq (deriv c a) b
  | Alt a b => Alt (deriv c a) (deriv c b)
  | Star a => Seq (deriv c a) (Star a)
  end.

(** [/^r$/.test(s)] *)
Fixpoint test (r : re) (s : string) : bool :=
  match s with
  | String c s' => test (deriv c r) s'
  | EmptyString => nullable r
  end.

End JsString.

(** ** The screens *)

(** [error.code]: SDK errors carry one, a plain [Error] does not. *)
Definition code (e : error) : option string :=
  match e with
  | SdkError c => Some c
  | Error _ => None
  end.

(** What a screen acts on besides its own cells: the alerts shown so far
    and the provider it reaches through [useAuth()]. *)
Record Device := mkDevice {
  alerts : list (string * string);
  provider : AuthContext.App }.

(** [Alert.alert(title, message)] *)
Definition Alert_alert {X} (title message : string) : M (X * Device) unit :=
  modify (λ s, (s.1, mkDevice (alerts s.2 ++ [(title, message)]) (provider s.2))).

(** A call of one of the provider's functions. *)
Definition useAuth {X A} (m : M AuthContext.App A) : M (X * Device) A :=
  λ s, let '(r, a) := m (provider s.2) in (r, (s.1, mkDevice (alerts s.2) a)).

(** [validateEmail] of both screens: [/^[^\s@]+@[^\s@]+\.[^\s@]+$/]. *)
Definition at_sign : Ascii.ascii := Ascii.ascii_of_nat 64.   (* '@' *)
Definition full_stop : Ascii.ascii := Ascii.ascii_of_nat 46. (* '.' *)

(** The class [[^\s@]]. *)
Definition ordinary (c : Ascii.ascii) : bool :=
  negb (JsString.is_space c || Ascii.eqb c at_sign).

Definition emailRegex : JsString.re :=
  JsString.Seq (JsString.Plus (JsString.Class ordinary))
    (JsString.Seq (JsString.Char at_sign)
       (JsString.Seq (JsString.Plus (JsString.Class ordinary))
          (JsString.Seq (JsString.Char full_stop) (JsString.Plus (JsString.Class ordinary))))).

Definition validateEmail (email : string) : bool := JsString.test emailRegex email.

Module RegisterScreen.

(** The [useState] cells. *)
Record state := mkState {
  name : string;
  email : string;
  password : string;
  confirmPassword : string;
  diabetesType : string;
  isLoading : bool }.

Definition setIsLoading (b : bool) : state * Device → state * Device :=
  λ s, (mkState (name s.1) (email s.1) (password s.1) (confirmPassword s.1)
          (diabetesType s.1) b, s.2).

Definition validatePassword (password : string) : bool :=
  (6 <=? String.length password)%nat.

(** The message shown for a rejected registration. *)
Definition errorMessage (error : error) : string :=
  if bool_decide (code error = Some "auth/email-already-in-use")
  then "This email is already in use"
  else if bool_decide (code error = Some "auth/invalid-email")
  then "Invalid email format"
  else if bool_decide (code error = Some "auth/weak-password")
  then "Password is too weak"
  else "Failed to create account".

(** [handleRegister], called at the time [now] ([new Date().toISOString()]). *)
Definition handleRegister (now : string) : M (state * Device) unit :=
  let! f := gets fst in
  if JsString.blank (name f) then
    Alert_alert "Error" "Name is required"
  else if JsString.blank (email f) || negb (validateEmail (email f)) then
    Alert_alert "Error" "Please enter a valid email address"
  else if negb (validatePassword (password f)) then
    Alert_alert "Error" "Password must be at least 6 characters long"
  else if negb (String.eqb (password f) (confirmPassword f)) then
    Alert_alert "Error" "Passwords do not match"
  else if JsString.blank (diabetesType f) then
    Alert_alert "Error" "Please select your diabetes type"
  else
    modify (setIsLoading true) ;;
    try_finally
      (try_catch
         (let userData :=
            literal [ ("name", VStr (name f));
                      ("diabetesType", VStr (diabetesType f));
                      ("createdAt", VStr now) ] in
          useAuth (AuthContext.register (email f) (password f) userData) ;;
          ret ())
         (λ error, Alert_alert "Registration Error" (errorMessage error)))
      (setIsLoading false).

End RegisterScreen.

Module ForgotPasswordScreen.

Record state := mkState {
  email : string;
  isLoading : bool;
  isEmailSent : bool }.

Definition setIsLoading (b : bool) : state * Device → state * Device :=
  λ s, (mkState (email s.1) b (isEmailSent s.1), s.2).

Definition setIsEmailSent (b : bool) : M (state * Device) unit :=
  modify (λ s, (mkState (email s.1) (isLoading s.1) b, s.2)).

Definition errorMessage (error : error) : string :=
  if bool_decide (code error = Some "auth/user-not-found")
  then "No account found with this email"
  else if bool_decide (code error = Some "auth/invalid-email")
  then "Invalid email format"
  else "Failed to send password reset email".

Definition handleResetPassword : M (state * Device) unit :=
  let! f := gets fst in
  if JsString.blank (email f) || negb (validateEmail (email f)) then
    Alert_alert "Error" "Please enter a valid email address"
  else
    modify (setIsLoading true) ;;
    try_finally
      (try_catch
         (useAuth (AuthContext.resetPassword (email f)) ;;
          setIsEmailSent true)
         (λ error, Alert_alert "Reset Password Error" (errorMessage error)))
      (setIsLoading false).

End ForgotPasswordScreen.

Module HomeScreen.

Definition handleLogout : M (unit * Device) unit :=
  try_catch
    (useAuth AuthContext.logout)
    (λ error, Alert_alert "Error" "Failed to log out").

End HomeScreen.

(** ** Sample worlds *)

(** The object [RegisterScreen] passes to [register]. *)
Definition ann : obj :=
  literal [ ("name", VStr "Ann"); ("diabetesType", VStr "Type 1");
            ("createdAt", VStr "2024-01-01T00:00:00.000Z") ].

(** Ann has registered on a fresh installation. *)
Definition registered : World :=
  (AuthService.register "a@x.com" "secret1" ann empty_world).2.

(** Ann has then logged in: the cache holds her snapshot and her token. *)
Definition signed_in : World :=
  (AuthService.login "a@x.com" "secret1" registered).2.

(** ** Vocabulary of the statements *)

(** The error the identity provider will answer its next call with, if
    its script rejects that call. *)
Definition auth_rejection (w : World) : option error :=
  match auth_env w with
  | Some e :: _ => Some e
  | _ => None
  end.

Definition storage_rejection (w : World) : option error :=
  match storage_env w with
  | Some e :: _ => Some e
  | _ => None
  end.

Definition fs_rejection (w : World) : option error :=
  match fs_env w with
  | Rejected e :: _ => Some e
  | _ => None
  end.

(** The documents the next call to the profile store will find: those of
    the world, after the change another client may have made meanwhile. *)
Definition visible_docs (w : World) : gmap string obj :=
  match fs_env w with
  | Elsewhere id (Some d) :: _ => <[id := d]> (docs w)
  | Elsewhere id None :: _ => delete id (docs w)
  | _ => docs w
  end.

(** The next [n] calls to the profile store are served as they are: none
    is rejected and no other client writes in between. *)
Definition fs_quiet (n : nat) (w : World) : Prop :=
  Forall (λ s, s = Served) (take n (fs_env w)).

(** The next [n] calls to AsyncStorage are served. *)
Definition storage_quiet (n : nat) (w : World) : Prop :=
  Forall (λ s, s = None) (take n (storage_env w)).

(** The backend holds the same data in both worlds; scripts, trace and
    console are not compared. *)
Definition unchanged (w w' : World) : Prop :=
  accounts w' = accounts w ∧ currentUser w' = currentUser w ∧
  docs w' = docs w ∧ clock w' = clock w ∧ storage w' = storage w.

(** The error kinds of the specification, as the service raises them. *)
Definition NotAuthenticated : error := Error "No authenticated user found".
Definition ReauthenticationFailed : error := Error "Failed to reauthenticate user".

(** The object in the user-data entry of the cache, when that entry holds
    the text of one. *)
Definition cached_snapshot (w : World) : option obj :=
  match storage w !! USER_DATA_KEY with
  | Some (Json o) => Some o
  | _ => None
  end.

(** [getCurrentUser] does not take the live path: there is no live
    identity, or the profile store answers that it has no document. *)
Definition falls_back (w : World) : Prop :=
  currentUser w = None ∨
  ∃ u, currentUser w = Some u ∧ fs_rejection w = None ∧ visible_docs w !! uid u = None.

(** [{ uid: user.uid, email: user.email }], the live identity fields. *)
Definition identity_fields (u : user) : obj :=
  literal [ ("uid", VStr (uid u)); ("email", email_value u) ].

(** The session a user registered at server time [t] reads back. *)
Definition registered_session (u : user) (t : nat) (userData : obj) : obj :=
  literal [ ("uid", VStr (uid u));
            ("email", email_value u);
            ("name", Firestore.stamp t (or_else (userData !! "name") (VStr "")));
            ("birthdate", Firestore.stamp t (or_else (userData !! "birthdate") VNull));
            ("diabetesType",
             Firestore.stamp t (or_else (userData !! "diabetesType") (VStr "")));
            ("createdAt", VTimestamp t);
            ("lastLoginAt", VTimestamp t) ].

(** The live identity has a usable e-mail and the identity provider
    accepts the credential made of it and the password. *)
Definition identity_reproved (password : string) (w : World) : Prop :=
  ∃ u e, currentUser w = Some u ∧ email u = Some e ∧ e ≠ "" ∧
         (Auth.reauthenticateWithCredential u (Auth.credential e password) w).1 = Ok ().

(** The world with the token entry of the cache removed. *)
Definition erase_token (w : World) : World :=
  set_storage (delete AUTH_TOKEN_KEY (storage w)) w.

(** Two worlds that differ at most in the token entry of the cache. *)
Definition same_but_token (w w' : World) : Prop :=
  erase_token w = erase_token w'.

(** The same provider state over two such worlds. *)
Definition same_but_token_app (a a' : AuthContext.App) : Prop :=
  a.1 = a'.1 ∧ same_but_token a.2 a'.2.

(** An asynchronous function that cannot tell related states apart: on
    them it gives the same result and leaves related states. *)
Definition respects {S A} (R : S → S → Prop) (m : M S A) : Prop :=
  ∀ s s', R s s' → (m s).1 = (m s').1 ∧ R (m s).2 (m s').2.

(** An observation of the backend's data that a function leaves as it
    is, always ([keeps]) or at least when it raises ([keeps_on_error]). *)
Definition keeps {X A} (f : World → X) (m : M World A) : Prop :=
  ∀ w, f (m w).2 = f w.

Definition keeps_on_error {X A} (f : World → X) (m : M World A) : Prop :=
  ∀ w e, (m w).1 = Err e → f (m w).2 = f w.

(** An observation that reads the backend's data only: not the scripts,
    the trace or the console. *)
Definition data_only {X} (f : World → X) : Prop :=
  ∀ w w', unchanged w w' → f w' = f w.

(** The snapshot [login] caches for a user whose profile document is
    [userData]. *)
Definition login_snapshot (u : user) (userData : obj) : obj :=
  spread (identity_fields u)
         (defined_fields [ ("name", userData !! "name");
                           ("birthdate", userData !! "birthdate");
                           ("diabetesType", userData !! "diabetesType") ]).

(** What the provider's [error] cell holds after a service call: nothing
    after a success, [err.message] after a rejection. *)
Definition reported {A} (r : result A) : option string :=
  match r with
  | Ok _ => None
  | Err e => Some (message e)
  end.

(** A part of an address: non-empty, without white space and without
    an at sign. *)
Definition address_part (s : string) : Prop :=
  s ≠ "" ∧ JsString.all_chars ordinary s = true.

(** The form [handleRegister] lets through. *)
Definition acceptable (f : RegisterScreen.state) : bool :=
  negb (JsString.blank (RegisterScreen.name f)) &&
  validateEmail (RegisterScreen.email f) &&
  (6 <=? String.length (RegisterScreen.password f))%nat &&
  String.eqb (RegisterScreen.password f) (RegisterScreen.confirmPassword f) &&
  negb (JsString.blank (RegisterScreen.diabetesType f)).

(** Closes [∀ p, call p ∉ [c1; ...; cn]] when no [ci] is such a call. *)
Ltac not_called :=
  let H := fresh in
  intros ? H; rewrite ?elem_of_cons, ?elem_of_nil in H; intuition discriminate.

(** Closes an equation between closed terms (or terms whose variables
    do not block the computation) by evaluating both sides. *)
Ltac by_vm :=
  lazymatch goal with
  | |- ?a = ?b => vm_cast_no_check (@eq_refl _ b)
  end.

(** ** The clients, one call at a time *)

Section Clients.

Implicit Types (w : World) (e : error).

Lemma unchanged_refl w : unchanged w w.
Proof. by repeat split. Qed.

Lemma unchanged_trans w1 w2 w3 :
  unchanged w1 w2 → unchanged w2 w3 → unchanged w1 w3.
Proof. unfold unchanged. intros (-> & -> & -> & -> & ->) (-> & -> & -> & -> & ->). done. Qed.

Lemma unchanged_console w l : unchanged w (set_console l w).
Proof. by repeat split. Qed.

Lemma reauthenticateWithCredential_frame u cred w :
  let w' := (Auth.reauthenticateWithCredential u cred w).2 in
  unchanged w w' ∧ trace w' = (trace w ++ [Reauthenticate cred.1 cred.2])%list.
Proof.
  unfold Auth.reauthenticateWithCredential, Auth.request, record, unchanged. simpl.
  destruct (auth_env w) as [|[e|] rest]; simpl; repeat case_match; done.
Qed.

End Clients.

(** ** Re-authentication and password change *)

(** C3: [reauthenticate] never raises, whatever the identity provider
    does; it resolves with [true] exactly when the identity was re-proved
    (a live identity with an e-mail whose credential the provider
    accepts) and with [false] in every other case, rejected calls
    included. *)
Theorem reauthenticate_never_raises password w :
  ∃ b, (AuthService.reauthenticate password w).1 = Ok b ∧
       (b = true ↔ identity_reproved password w).
Proof.
  unfold AuthService.reauthenticate, identity_reproved,
    try_catch, bind, gets, throw, ret, console_error, modify.
  destruct (currentUser w) as [u|] eqn:Hu; simpl;
    [destruct (email u) as [e|] eqn:He; simpl;
     [destruct (String.eqb_spec e "") as [->|Hne]; simpl|]|].
  2: { destruct (Auth.reauthenticateWithCredential u (Auth.credential e password) w)
         as [[[]|err] w1] eqn:Hr; simpl.
       - exists true. split; [done|]. split; [|done].
         intros _. exists u, e. by rewrite Hr.
       - exists false. split; [done|]. split; [done|].
         intros (? & ? & ? & ? & _ & Hk). simplify_eq. by rewrite Hr in Hk. }
  all: exists false; split; [done|]; split; [done|].
  all: intros (? & ? & ? & ? & ? & ?); simplify_eq.
Qed.

(** What a failed re-authentication leaves behind: the same backend, and
    at most the one re-authentication call in the trace. *)
Lemma reauthenticate_frame password w :
  let w' := (AuthService.reauthenticate password w).2 in
  unchanged w w' ∧
  ∃ calls : list call, trace w' = (trace w ++ calls)%list ∧ ∀ p, UpdatePassword p ∉ calls.
Proof.
  unfold AuthService.reauthenticate, try_catch, bind, gets, throw, ret,
    console_error, modify.
  destruct (currentUser w) as [u|] eqn:Hu; simpl;
    [destruct (email u) as [e|] eqn:He; simpl;
     [destruct (String.eqb e "") eqn:Hne; simpl|]|].
  2: { pose proof (reauthenticateWithCredential_frame u (Auth.credential e password) w) as [Hf Ht].
       destruct (Auth.reauthenticateWithCredential u (Auth.credential e password) w)
         as [[[]|err] w1]; simpl in *.
       all: split; [done|]; eexists; split; [exact Ht|]; not_called. }
  all: split; [by repeat split|]; exists []; split; [by rewrite app_nil_r|]; not_called.
Qed.

(** C2: when [reauthenticate currentPassword] returns [false],
    [changePassword] fails with the re-authentication error, issues no
    password update (the calls it adds to the trace contain none) and
    leaves accounts, live identity, documents and cache as they were. *)
Theorem changePassword_requires_reauthentication currentPassword newPassword w :
  (AuthService.reauthenticate currentPassword w).1 = Ok false →
  let r := AuthService.changePassword currentPassword newPassword w in
  r.1 = Err ReauthenticationFailed ∧
  unchanged w r.2 ∧
  ∃ calls : list call,
    trace r.2 = (trace w ++ calls)%list ∧ ∀ p, UpdatePassword p ∉ calls.
Proof.
  intros Hfalse.
  pose proof (reauthenticate_frame currentPassword w) as [Hsame Htrace].
  unfold AuthService.changePassword, try_catch, bind, throw, console_error, modify.
  destruct (AuthService.reauthenticate currentPassword w) as [r w1].
  simpl in *. subst r. simpl. done.
Qed.

(** Ann is signed in and types a wrong current password. *)
Lemma changePassword_requires_reauthentication_witness :
  (AuthService.changePassword "wrong" "secret2" signed_in).1
  = Err ReauthenticationFailed ∧
  unchanged signed_in (AuthService.changePassword "wrong" "secret2" signed_in).2.
Proof.
  pose proof (changePassword_requires_reauthentication "wrong" "secret2" signed_in) as H.
  cbv zeta in H. destruct H as (Herr & Hsame & _); [by_vm|].
  split; [exact Herr | exact Hsame].
Defined.

(** ** Logout *)

Lemma keys_distinct : USER_DATA_KEY ≠ AUTH_TOKEN_KEY.
Proof. discriminate. Qed.

(** C1, as stated, fails: with Ann signed in and the identity provider
    rejecting the sign-out call, [logout] re-raises the provider's error
    and both cache entries are still there. *)
Lemma logout_sign_out_failure_keeps_cache :
  let w := set_auth_env [Some (SdkError "auth/network-request-failed")] signed_in in
  let r := AuthService.logout w in
  r.1 = Err (SdkError "auth/network-request-failed") ∧
  storage r.2 !! USER_DATA_KEY =
    Some (Json (literal [ ("uid", VStr "uid:a@x.com"); ("email", VStr "a@x.com");
                          ("name", VStr "Ann"); ("birthdate", VNull);
                          ("diabetesType", VStr "Type 1") ])) ∧
  storage r.2 !! AUTH_TOKEN_KEY = Some (Text "jwt:uid:a@x.com").
Proof. intros w r. split_and!; by_vm. Qed.

(** C1, amended: whenever [logout] returns normally both cache entries
    are absent, and it does return normally when the sign-out call and
    the two removals are served; when the remote sign-out call is
    rejected, [logout] re-raises that error and the cache is as it was. *)
Theorem logout_clears_cache_when_it_returns w :
  let r := AuthService.logout w in
  (r.1 = Ok () →
     storage r.2 !! USER_DATA_KEY = None ∧ storage r.2 !! AUTH_TOKEN_KEY = None) ∧
  (auth_rejection w = None → storage_quiet 2 w → r.1 = Ok ()) ∧
  (∀ e, auth_rejection w = Some e → r.1 = Err e ∧ storage r.2 = storage w).
Proof.
  unfold AuthService.logout, Auth.signOut, AsyncStorage.removeItem,
    Auth.request, AsyncStorage.request, try_catch, bind, throw, modify,
    console_error, record, auth_rejection, storage_quiet.
  destruct w as [acc cu aenv ds clk fenv sto senv tr con]. simpl.
  destruct aenv as [|[e0|] aenv]; simpl.
  2: { split_and!; [done|done|]. by intros e [= ->]. }
  all: destruct senv as [|[e1|] [|[e2|] senv]]; simpl.
  all: split_and!; try done.
  all: try (intros _;
            by rewrite ?lookup_delete_eq,
                 ?(lookup_delete_ne _ _ _ (not_eq_sym keys_distinct)),
                 ?lookup_delete_eq).
  all: intros _ H; repeat (apply Forall_cons in H as [? H]); done.
Qed.

Lemma logout_clears_cache_witness :
  (storage (AuthService.logout signed_in).2 !! USER_DATA_KEY = None ∧
   storage (AuthService.logout signed_in).2 !! AUTH_TOKEN_KEY = None) ∧
  (AuthService.logout signed_in).1 = Ok ().
Proof.
  pose proof (logout_clears_cache_when_it_returns signed_in) as (Hclear & Hok & _).
  assert ((AuthService.logout signed_in).1 = Ok ()) as Hret.
  { apply Hok; [by_vm | vm_compute; constructor]. }
  split; [exact (Hclear Hret) | exact Hret].
Defined.

(** ** The status queries *)

(** C5, as stated, fails: with no live identity and an empty string as
    the cached token, [isAuthenticated] answers [true]; the source tests
    [token !== null], not that the token is non-empty. *)
Lemma isAuthenticated_true_on_empty_token :
  let w := set_storage {[ AUTH_TOKEN_KEY := Text "" ]} empty_world in
  currentUser w = None ∧
  storage w !! AUTH_TOKEN_KEY = Some (Text "") ∧
  nonempty (Text "") = false ∧
  (AuthService.isAuthenticated w).1 = Ok true.
Proof. intros w. split_and!; by_vm. Qed.

(** C5, amended: [isAuthenticated] answers [true] whenever there is a
    live identity; otherwise, when the cache read is served, it answers
    [true] exactly when the cache holds a token entry, whatever its
    content; and when the cache read is rejected it answers [false]. *)
Theorem isAuthenticated_signal w :
  let r := (AuthService.isAuthenticated w).1 in
  (is_Some (currentUser w) → r = Ok true) ∧
  (currentUser w = None → storage_rejection w = None →
     r = Ok (bool_decide (is_Some (storage w !! AUTH_TOKEN_KEY)))) ∧
  (currentUser w = None → is_Some (storage_rejection w) → r = Ok false).
Proof.
  unfold AuthService.isAuthenticated, AsyncStorage.getItem, AsyncStorage.request,
    try_catch, bind, gets, ret, console_error, modify, record, storage_rejection.
  destruct w as [acc cu aenv ds clk fenv sto senv tr con]. simpl.
  destruct cu as [u|]; simpl.
  { split_and!; [done| |]; by intros [=]. }
  split_and!.
  - by intros [? [=]].
  - intros _. destruct senv as [|[e|] senv]; simpl; intros; simplify_eq.
    all: f_equal; apply bool_decide_ext; by rewrite <-not_eq_None_Some.
  - intros _. destruct senv as [|[e|] senv]; simpl; intros [? ?]; by simplify_eq.
Qed.

(** The process has just started: the provider has not reported yet, the
    cache still holds Ann's token. *)
Lemma isAuthenticated_signal_witness :
  (AuthService.isAuthenticated (set_currentUser None signed_in)).1 = Ok true ∧
  (AuthService.isAuthenticated
     (set_storage_env [Some (SdkError "storage/io")] (set_currentUser None signed_in))).1
  = Ok false.
Proof.
  split.
  - transitivity
      (Ok (bool_decide
             (is_Some (storage (set_currentUser None signed_in) !! AUTH_TOKEN_KEY))));
      [|by_vm].
    apply (isAuthenticated_signal (set_currentUser None signed_in)); by_vm.
  - apply (isAuthenticated_signal
             (set_storage_env [Some (SdkError "storage/io")]
                (set_currentUser None signed_in))); [by_vm | by eexists].
Defined.

Lemma getCurrentUser_resolves w :
  ∃ session, (AuthService.getCurrentUser w).1 = Ok session.
Proof.
  unfold AuthService.getCurrentUser, try_catch.
  match goal with
  | |- context [match ?b w with _ => _ end] => destruct (b w) as [[s|e] w1]
  end.
  all: simpl; eauto.
Qed.

(** C4, as stated, fails: Ann is signed in and her snapshot is cached,
    but the profile store is unreachable; the rejected read is caught and
    [getCurrentUser] returns [null], not the cached snapshot. *)
Lemma getCurrentUser_null_when_profile_read_fails :
  let w := set_fs_env [Rejected (SdkError "firestore/unavailable")] signed_in in
  currentUser w = Some (mkUser "uid:a@x.com" (Some "a@x.com")) ∧
  cached_snapshot w =
    Some (literal [ ("uid", VStr "uid:a@x.com"); ("email", VStr "a@x.com");
                    ("name", VStr "Ann"); ("birthdate", VNull);
                    ("diabetesType", VStr "Type 1") ]) ∧
  (AuthService.getCurrentUser w).1 = Ok None.
Proof. intros w. split_and!; by_vm. Qed.

(** C4, amended: [getCurrentUser] never raises.  With a live identity
    whose profile document the store returns, it yields the identity
    fields merged with that document.  With no live identity, or when the
    store answers that there is no document, it yields the cached
    snapshot if the cache read is served ([null] when the entry is
    absent).  When the profile read or the cache read is rejected, the
    error is swallowed and it yields [null]. *)
Theorem getCurrentUser_sources w :
  let r := (AuthService.getCurrentUser w).1 in
  (∃ session, r = Ok session) ∧
  (∀ u data, currentUser w = Some u → fs_rejection w = None →
     visible_docs w !! uid u = Some data →
     r = Ok (Some (spread (identity_fields u) data))) ∧
  (falls_back w → storage_rejection w = None →
     r = Ok (cached_snapshot w) ∧ (storage w !! USER_DATA_KEY = None → r = Ok None)) ∧
  (∀ u, currentUser w = Some u → is_Some (fs_rejection w) → r = Ok None) ∧
  (falls_back w → is_Some (storage_rejection w) → r = Ok None).
Proof.
  split; [apply getCurrentUser_resolves|].
  unfold AuthService.getCurrentUser, Firestore.get, AsyncStorage.getItem,
    Firestore.request, AsyncStorage.request, JSON_parse,
    try_catch, bind, gets, ret, throw, console_error, modify, record, falls_back,
    storage_rejection, fs_rejection, visible_docs, cached_snapshot, identity_fields.
  destruct w as [acc cu aenv ds clk fenv sto senv tr con]. simpl.
  split_and!.
  - intros u data -> Hrej Hdoc.
    destruct fenv as [|[|e|id [d|]] fenv]; simplify_eq/=; by rewrite Hdoc.
  - intros Hfall Hrej.
    destruct Hfall as [->|(u & -> & Hfs & Hdoc)].
    + destruct senv as [|[e|] senv]; simplify_eq/=.
      all: destruct (sto !! USER_DATA_KEY) as [[t|o]|] eqn:Hc; simpl; [|done..].
      all: destruct (String.eqb t ""); simpl; split; done.
    + destruct fenv as [|[|e|id [d|]] fenv]; simplify_eq/=; rewrite Hdoc; simpl.
      all: destruct senv as [|[e|] senv]; simplify_eq/=.
      all: destruct (sto !! USER_DATA_KEY) as [[t|o]|] eqn:Hc; simpl; [|done..].
      all: destruct (String.eqb t ""); simpl; split; done.
  - intros u -> [e He]. destruct fenv as [|[|e'|id [d|]] fenv]; by simplify_eq/=.
  - intros Hfall [e He]. destruct senv as [|[e'|] senv]; simplify_eq/=.
    destruct Hfall as [->|(u & -> & Hfs & Hdoc)]; [done|].
    destruct fenv as [|[|e''|id [d|]] fenv]; simplify_eq/=; by rewrite Hdoc.
Qed.

(** Ann's cached snapshot is what comes back once the provider has lost
    the live identity; with the identity live, the stored document wins. *)
Lemma getCurrentUser_sources_witness :
  let u := mkUser "uid:a@x.com" (Some "a@x.com") in
  let data := literal [ ("email", VStr "a@x.com"); ("name", VStr "Ann");
                        ("birthdate", VNull); ("diabetesType", VStr "Type 1");
                        ("createdAt", VTimestamp 0); ("lastLoginAt", VTimestamp 1) ] in
  (AuthService.getCurrentUser (set_currentUser None signed_in)).1
  = Ok (cached_snapshot signed_in) ∧
  (AuthService.getCurrentUser signed_in).1 = Ok (Some (spread (identity_fields u) data)).
Proof.
  split.
  - apply (getCurrentUser_sources (set_currentUser None signed_in));
      [left|]; by_vm.
  - apply (getCurrentUser_sources signed_in); by_vm.
Defined.
(** ** Registration *)

(** A non-empty string given for a profile field is stored as it is. *)
Lemma kept_string t s d : s ≠ "" → Firestore.stamp t (or_else (Some (VStr s)) d) = VStr s.
Proof. intros Hs. unfold or_else, truthy. by destruct (String.eqb_spec s "") as [->|_]. Qed.

(** What [register] has done when it returns, and when the profile
    document cannot be written. *)
Lemma register_outcome email password userData w :
  let r := AuthService.register email password userData w in
  (∀ u, r.1 = Ok u →
     u = mkUser (Auth.fresh_uid email) (Some email) ∧
     accounts w !! email = None ∧
     currentUser r.2 = Some u ∧
     accounts r.2 = <[email := mkAccount (uid u) password]> (accounts w) ∧
     docs r.2 !! uid u =
       Some (Firestore.stamp (clock w) <$> AuthService.profile_document email userData) ∧
     storage r.2 = <[USER_DATA_KEY := Json (spread (identity_fields u) userData)]> (storage w) ∧
     trace r.2 =
       (trace w ++
        [ CreateUser email password;
          DocSet (uid u) (AuthService.profile_document email userData);
          SetItem USER_DATA_KEY (JSON_stringify (spread (identity_fields u) userData)) ])%list) ∧
  (∀ u e, (Auth.createUserWithEmailAndPassword email password w).1 = Ok u →
     fs_rejection w = Some e →
     r.1 = Err e ∧
     accounts r.2 !! email = Some (mkAccount (uid u) password) ∧
     currentUser r.2 = Some u ∧
     docs r.2 = docs w ∧ storage r.2 = storage w ∧
     trace r.2 =
       (trace w ++
        [ CreateUser email password;
          DocSet (uid u) (AuthService.profile_document email userData) ])%list).
Proof.
  unfold AuthService.register, Auth.createUserWithEmailAndPassword, Firestore.set,
    AsyncStorage.setItem, Auth.request, Firestore.request, AsyncStorage.request,
    JSON_stringify, identity_fields, email_value,
    try_catch, bind, ret, throw, console_error, modify, record, fs_rejection.
  destruct w as [acc cu aenv ds clk fenv sto senv tr con]. simpl.
  split.
  - intros u.
    destruct aenv as [|[e0|] aenv]; simpl; [|by intros [=]|].
    all: destruct (acc !! email) as [a|] eqn:Hacc; simpl; [by intros [=]|].
    all: destruct fenv as [|[|e1|id [d|]] fenv]; simpl; try by intros [=].
    all: destruct senv as [|[e2|] senv]; simpl; try by intros [=].
    all: intros [= <-]; simpl; rewrite <-?app_assoc; simpl.
    all: split_and!; try done; by rewrite ?lookup_insert_eq.
  - intros u e.
    destruct aenv as [|[e0|] aenv]; simpl; [|by intros [=]|].
    all: destruct (acc !! email) as [a|] eqn:Hacc; simpl; [by intros [=]|].
    all: intros [= <-]; simpl.
    all: destruct fenv as [|[|e1|id [d|]] fenv]; simpl; try by intros [=].
    all: intros [= <-]; rewrite <-?app_assoc; simpl.
    all: split_and!; try done; by rewrite ?lookup_insert_eq.
Qed.

(** The profile document as the server stores it at time [t]. *)
Lemma stamped_profile_document email userData t :
  Firestore.stamp t <$> AuthService.profile_document email userData =
  literal [ ("email", VStr email);
            ("name", Firestore.stamp t (or_else (userData !! "name") (VStr "")));
            ("birthdate", Firestore.stamp t (or_else (userData !! "birthdate") VNull));
            ("diabetesType", Firestore.stamp t (or_else (userData !! "diabetesType") (VStr "")));
            ("createdAt", VTimestamp t);
            ("lastLoginAt", VTimestamp t) ].
Proof.
  unfold AuthService.profile_document.
  generalize (or_else (userData !! "name") (VStr "")).
  generalize (or_else (userData !! "birthdate") VNull).
  generalize (or_else (userData !! "diabetesType") (VStr "")).
  intros v1 v2 v3. by_vm.
Qed.

(** C6: a successful [register] has called, in this order, the identity
    provider (account creation), the profile store (the document, which
    the server stamps with its time as [createdAt] and [lastLoginAt]) and
    the cache (the identity fields merged with the profile fields).  When
    the account was created and the profile store rejects the document,
    [register] raises that error, the rejected write is its last call (no
    rollback is issued) and the new account is still there, signed in. *)
Theorem register_steps_and_partial_failure email password userData w :
  let r := AuthService.register email password userData w in
  (∀ u, r.1 = Ok u →
     trace r.2 =
       (trace w ++
        [ CreateUser email password;
          DocSet (uid u) (AuthService.profile_document email userData);
          SetItem USER_DATA_KEY (JSON_stringify (spread (identity_fields u) userData)) ])%list ∧
     (∃ d, docs r.2 !! uid u = Some d ∧
           d !! "createdAt" = Some (VTimestamp (clock w)) ∧
           d !! "lastLoginAt" = Some (VTimestamp (clock w))) ∧
     storage r.2 !! USER_DATA_KEY =
       Some (JSON_stringify (spread (identity_fields u) userData))) ∧
  (∀ u e, (Auth.createUserWithEmailAndPassword email password w).1 = Ok u →
     fs_rejection w = Some e →
     r.1 = Err e ∧
     accounts r.2 !! email = Some (mkAccount (uid u) password) ∧
     currentUser r.2 = Some u ∧
     trace r.2 =
       (trace w ++
        [ CreateUser email password;
          DocSet (uid u) (AuthService.profile_document email userData) ])%list).
Proof.
  pose proof (register_outcome email password userData w) as [Hok Hfail].
  split.
  - intros u Hu. destruct (Hok u Hu) as (_ & _ & _ & _ & Hdoc & Hsto & Htr).
    split_and!; [done| |by rewrite Hsto, lookup_insert_eq].
    eexists. split; [exact Hdoc|].
    rewrite stamped_profile_document. split; by_vm.
  - intros u e Hu He. destruct (Hfail u e Hu He) as (? & ? & ? & _ & _ & ?). done.
Qed.

(** Ann registers on a fresh installation; and once more with the
    profile store unreachable. *)
Lemma register_steps_and_partial_failure_witness :
  let u := mkUser "uid:a@x.com" (Some "a@x.com") in
  let w := set_fs_env [Rejected (SdkError "firestore/unavailable")] empty_world in
  trace registered =
    [ CreateUser "a@x.com" "secret1";
      DocSet "uid:a@x.com" (AuthService.profile_document "a@x.com" ann);
      SetItem USER_DATA_KEY (JSON_stringify (spread (identity_fields u) ann)) ] ∧
  (AuthService.register "a@x.com" "secret1" ann w).1
  = Err (SdkError "firestore/unavailable") ∧
  accounts (AuthService.register "a@x.com" "secret1" ann w).2 !! "a@x.com"
  = Some (mkAccount "uid:a@x.com" "secret1").
Proof.
  intros u w.
  pose proof (register_steps_and_partial_failure "a@x.com" "secret1" ann empty_world)
    as [Hok _].
  pose proof (register_steps_and_partial_failure "a@x.com" "secret1" ann w)
    as [_ Hfail].
  destruct (Hok u) as (Htrace & _); [by_vm|].
  destruct (Hfail u (SdkError "firestore/unavailable")) as (Herr & Hacc & _);
    [by_vm | by_vm |].
  split_and!; [exact Htrace | exact Herr | exact Hacc].
Defined.

(** ** Reading a session back *)

Lemma fs_quiet_1 w :
  fs_quiet 1 w → fs_rejection w = None ∧ visible_docs w = docs w.
Proof.
  unfold fs_quiet, fs_rejection, visible_docs.
  destruct (fs_env w) as [|[|e|id d] rest]; simpl; try done.
  all: intros [[=] _]%Forall_cons.
Qed.

(** The live path of [getCurrentUser]. *)
Lemma getCurrentUser_live w u data :
  currentUser w = Some u → fs_rejection w = None →
  visible_docs w !! uid u = Some data →
  (AuthService.getCurrentUser w).1 = Ok (Some (spread (identity_fields u) data)).
Proof.
  unfold AuthService.getCurrentUser, Firestore.get, Firestore.request,
    try_catch, bind, gets, ret, record, fs_rejection, visible_docs, identity_fields.
  destruct w as [acc cu aenv ds clk fenv sto senv tr con]. simpl.
  intros -> Hrej Hdoc.
  destruct fenv as [|[|e|id [d|]] fenv]; simplify_eq/=; by rewrite Hdoc.
Qed.

Lemma registered_session_eq e t userData :
  let u := mkUser (Auth.fresh_uid e) (Some e) in
  spread (identity_fields u)
         (Firestore.stamp t <$> AuthService.profile_document e userData)
  = registered_session u t userData.
Proof.
  intros u. rewrite stamped_profile_document.
  unfold registered_session, identity_fields, email_value, u. simpl.
  generalize (Firestore.stamp t (or_else (userData !! "name") (VStr ""))).
  generalize (Firestore.stamp t (or_else (userData !! "birthdate") VNull)).
  generalize (Firestore.stamp t (or_else (userData !! "diabetesType") (VStr ""))).
  generalize (VStr (Auth.fresh_uid e)). generalize (VStr e).
  intros v1 v2 v3 v4 v5. by_vm.
Qed.

(** C7, as stated, fails: Ann registers with the object [RegisterScreen]
    builds, whose [createdAt] is the client's ISO date string; the session
    read back right after has the server's timestamp as [createdAt], and a
    [birthdate] and a [lastLoginAt] that were never passed. *)
Lemma register_then_getCurrentUser_differs :
  let r := AuthService.register "a@x.com" "secret1" ann empty_world in
  let session :=
    literal [ ("uid", VStr "uid:a@x.com"); ("email", VStr "a@x.com");
              ("name", VStr "Ann"); ("birthdate", VNull);
              ("diabetesType", VStr "Type 1");
              ("createdAt", VTimestamp 0); ("lastLoginAt", VTimestamp 0) ] in
  r.1 = Ok (mkUser "uid:a@x.com" (Some "a@x.com")) ∧
  (AuthService.getCurrentUser r.2).1 = Ok (Some session) ∧
  ann !! "createdAt" = Some (VStr "2024-01-01T00:00:00.000Z") ∧
  session !! "createdAt" = Some (VTimestamp 0).
Proof. intros r session. split_and!; by_vm. Qed.

(** C7, amended: when [register] has succeeded and the profile store
    serves the next read, [getCurrentUser] yields the new user's uid and
    e-mail, the name, birthdate and diabetes type that were passed
    (replaced by [''], [null], [''] when missing or falsy) and the
    server's time of the profile write as [createdAt] and [lastLoginAt];
    in particular a non-empty string passed for one of the three profile
    fields is read back as it is.  Other properties of the object passed
    to [register] are not part of the session. *)
Theorem register_then_getCurrentUser email password userData w u w1 :
  AuthService.register email password userData w = (Ok u, w1) →
  fs_quiet 1 w1 →
  let session := registered_session u (clock w) userData in
  (AuthService.getCurrentUser w1).1 = Ok (Some session) ∧
  (∀ k s, k ∈ ["name"; "birthdate"; "diabetesType"] →
          userData !! k = Some (VStr s) → s ≠ "" → session !! k = Some (VStr s)).
Proof.
  intros Hreg Hquiet session.
  pose proof (register_outcome email password userData w) as [Hok _].
  rewrite Hreg in Hok. destruct (Hok u eq_refl) as (Hu & _ & Hcu & _ & Hdoc & _).
  apply fs_quiet_1 in Hquiet as [Hrej Hvis].
  split.
  - erewrite getCurrentUser_live; [|done|done|by rewrite Hvis].
    subst u session. by rewrite registered_session_eq.
  - intros k s Hk Hv Hs. unfold session, registered_session.
    rewrite !elem_of_cons, elem_of_nil in Hk.
    destruct Hk as [->|[->|[->|[]]]]; rewrite Hv, (kept_string _ _ _ Hs).
    all: generalize (VStr s); intros v.
    all: generalize (VStr (uid u)) (email_value u); intros.
    all: by_vm.
Qed.

Lemma register_then_getCurrentUser_witness :
  (AuthService.getCurrentUser registered).1
  = Ok (Some (registered_session (mkUser "uid:a@x.com" (Some "a@x.com")) 0 ann)) ∧
  registered_session (mkUser "uid:a@x.com" (Some "a@x.com")) 0 ann !! "name"
  = Some (VStr "Ann").
Proof.
  pose proof (register_then_getCurrentUser "a@x.com" "secret1" ann empty_world
                (mkUser "uid:a@x.com" (Some "a@x.com")) registered) as H.
  destruct H as [Hsession Hfields].
  - by_vm.
  - vm_compute. constructor.
  - split; [exact Hsession|].
    apply Hfields; [|by_vm|discriminate].
    apply elem_of_cons. by left.
Defined.

(** ** Updating the profile *)

Lemma fs_quiet_2 w :
  fs_quiet 2 w →
  fs_env w = [] ∨ fs_env w = [Served] ∨ ∃ rest, fs_env w = Served :: Served :: rest.
Proof.
  unfold fs_quiet.
  destruct (fs_env w) as [|s1 [|s2 rest]]; simpl; [by left|..].
  - intros [-> _]%Forall_cons. right. by left.
  - intros [-> [-> _]%Forall_cons]%Forall_cons. right. right. by eexists.
Qed.

Lemma storage_quiet_1 w :
  storage_quiet 1 w → storage_env w = [] ∨ ∃ rest, storage_env w = None :: rest.
Proof.
  unfold storage_quiet.
  destruct (storage_env w) as [|s1 rest]; simpl; [by left|].
  intros [-> _]%Forall_cons. right. by eexists.
Qed.

(** C8, as stated, fails in its last part: Ann has registered, so her
    cached snapshot has the client's ISO date as [createdAt] and no
    [birthdate]; after [updateUserProfile({ name: 'Bob' })] the cache does
    not hold that snapshot with the name merged in, but the live session
    (the profile document with the identity fields) with the name merged
    in: [createdAt] is now the server's timestamp. *)
Lemma updateUserProfile_replaces_cache :
  let fields := literal [ ("name", VStr "Bob") ] in
  let r := AuthService.updateUserProfile fields registered in
  let old := literal [ ("uid", VStr "uid:a@x.com"); ("email", VStr "a@x.com");
                       ("name", VStr "Ann"); ("diabetesType", VStr "Type 1");
                       ("createdAt", VStr "2024-01-01T00:00:00.000Z") ] in
  let new := literal [ ("uid", VStr "uid:a@x.com"); ("email", VStr "a@x.com");
                       ("name", VStr "Bob"); ("birthdate", VNull);
                       ("diabetesType", VStr "Type 1");
                       ("createdAt", VTimestamp 0); ("lastLoginAt", VTimestamp 0);
                       ("updatedAt", VTimestamp 1) ] in
  cached_snapshot registered = Some old ∧
  r.1 = Ok () ∧
  cached_snapshot r.2 = Some new ∧
  spread old fields !! "createdAt" = Some (VStr "2024-01-01T00:00:00.000Z") ∧
  new !! "createdAt" = Some (VTimestamp 0).
Proof. intros fields r old new. split_and!; by_vm. Qed.

(** C8, amended: without a live identity [updateUserProfile] fails with
    the not-authenticated error, calls nothing and leaves the backend as
    it was.  With a live identity whose profile document exists, and the
    store and the cache serving the calls, it merges the fields and the
    server's time as [updatedAt] into the remote document, reads the
    session back ([getCurrentUser]: identity fields merged with the
    updated document) and stores that session with the fields merged in
    as the new cached snapshot, replacing the previous one. *)
Theorem updateUserProfile_requires_identity userData w :
  let r := AuthService.updateUserProfile userData w in
  (currentUser w = None →
     r.1 = Err NotAuthenticated ∧ unchanged w r.2 ∧ trace r.2 = trace w) ∧
  (∀ u old, currentUser w = Some u → docs w !! uid u = Some old →
     fs_quiet 2 w → storage_quiet 1 w →
     let fields := spread userData (literal [ ("updatedAt", VServerTimestamp) ]) in
     let doc := (Firestore.stamp (clock w) <$> fields) ∪ old in
     let snapshot := spread (spread (identity_fields u) doc) userData in
     r.1 = Ok () ∧
     docs r.2 !! uid u = Some doc ∧
     doc !! "updatedAt" = Some (VTimestamp (clock w)) ∧
     storage r.2 !! USER_DATA_KEY = Some (JSON_stringify snapshot) ∧
     trace r.2 =
       (trace w ++ [ DocUpdate (uid u) fields; DocGet (uid u);
                     SetItem USER_DATA_KEY (JSON_stringify snapshot) ])%list).
Proof.
  split.
  - unfold AuthService.updateUserProfile, try_catch, bind, gets, throw,
      console_error, modify, NotAuthenticated.
    intros ->. simpl. by repeat split.
  - intros u old Hcu Hold Hfs Hsto fields doc snapshot.
    assert (doc !! "updatedAt" = Some (VTimestamp (clock w))) as Hstamp.
    { unfold doc, fields, spread.
      apply lookup_union_Some_l. rewrite lookup_fmap.
      rewrite (lookup_union_Some_l _ _ _ VServerTimestamp); [done|by_vm]. }
    apply fs_quiet_2 in Hfs. apply storage_quiet_1 in Hsto.
    subst doc snapshot fields.
    unfold AuthService.updateUserProfile, AuthService.getCurrentUser,
      Firestore.update, Firestore.get, AsyncStorage.setItem,
      Firestore.request, AsyncStorage.request, JSON_stringify, identity_fields,
      try_catch, bind, gets, ret, throw, console_error, modify, record in *.
    destruct w as [acc cu aenv ds clk fenv sto senv tr con]. simpl in *.
    subst cu.
    destruct Hfs as [->|[->|[rest ->]]]; simpl; rewrite Hold; simpl;
      rewrite lookup_insert_eq; simpl.
    all: destruct Hsto as [->|[rest' ->]]; simpl.
    all: rewrite <-?app_assoc; simpl.
    all: rewrite !lookup_insert_eq; done.
Qed.

Lemma updateUserProfile_requires_identity_witness :
  let fields := literal [ ("name", VStr "Bob") ] in
  (AuthService.updateUserProfile fields empty_world).1 = Err NotAuthenticated ∧
  (AuthService.updateUserProfile fields registered).1 = Ok ().
Proof.
  intros fields.
  pose proof (updateUserProfile_requires_identity fields empty_world) as [Hnone _].
  pose proof (updateUserProfile_requires_identity fields registered) as [_ Hlive].
  split.
  - apply Hnone. by_vm.
  - eapply (Hlive (mkUser "uid:a@x.com" (Some "a@x.com"))
              (literal [ ("email", VStr "a@x.com"); ("name", VStr "Ann");
                         ("birthdate", VNull); ("diabetesType", VStr "Type 1");
                         ("createdAt", VTimestamp 0); ("lastLoginAt", VTimestamp 0) ])).
    + by_vm.
    + by_vm.
    + vm_compute. constructor.
    + vm_compute. constructor.
Defined.

(** ** Logging in *)

(** A sequence that resolved: so did its first step. *)
Lemma bind_ok {S A B} (m : M S A) (k : A → M S B) s b s' :
  bind m k s = (Ok b, s') → ∃ a s1, m s = (Ok a, s1) ∧ k a s1 = (Ok b, s').
Proof. unfold bind. destruct (m s) as [[a|e] s1]; [eauto|done]. Qed.

(** A [catch] block that logs and rethrows does not change a result. *)
Lemma rethrow_ok {A} (body : M World A) label w a w' :
  try_catch body (λ error, console_error label error ;; throw error) w = (Ok a, w') →
  body w = (Ok a, w').
Proof. unfold try_catch. destruct (body w) as [[a'|e] w1]; [done|]. by cbv. Qed.

Lemma signIn_frame email password w :
  let r := Auth.signInWithEmailAndPassword email password w in
  storage r.2 = storage w ∧ docs r.2 = docs w ∧
  trace r.2 = (trace w ++ [SignIn email password])%list.
Proof.
  unfold Auth.signInWithEmailAndPassword, Auth.request, record. simpl.
  destruct (auth_env w) as [|[e|] rest]; simpl; repeat case_match; done.
Qed.

Lemma getIdToken_frame u w :
  let r := Auth.getIdToken u w in
  storage r.2 = storage w ∧ docs r.2 = docs w ∧
  trace r.2 = (trace w ++ [GetIdToken (uid u)])%list.
Proof.
  unfold Auth.getIdToken, Auth.request, record, ret. simpl.
  destruct (auth_env w) as [|[e|] rest]; done.
Qed.

Lemma update_frame id data w :
  let r := Firestore.update id data w in
  storage r.2 = storage w ∧ trace r.2 = (trace w ++ [DocUpdate id data])%list.
Proof.
  unfold Firestore.update, Firestore.request, record. simpl.
  destruct (fs_env w) as [|[|e|id' [d|]] rest]; simpl; repeat case_match; done.
Qed.

Lemma get_frame id w :
  let r := Firestore.get id w in
  storage r.2 = storage w ∧ trace r.2 = (trace w ++ [DocGet id])%list ∧
  ∀ d, r.1 = Ok d → docs r.2 !! id = d.
Proof.
  unfold Firestore.get, Firestore.request, record, gets. simpl.
  destruct (fs_env w) as [|[|e|id' [d'|]] rest]; simpl; split_and!; try done.
  all: by intros d [= <-].
Qed.

Lemma setItem_frame key v w :
  let r := AsyncStorage.setItem key v w in
  docs r.2 = docs w ∧ trace r.2 = (trace w ++ [SetItem key v])%list ∧
  (r.1 = Ok () → storage r.2 = <[key := v]> (storage w)).
Proof.
  unfold AsyncStorage.setItem, AsyncStorage.request, record, modify. simpl.
  destruct (storage_env w) as [|[e|] rest]; done.
Qed.

(** C9: when [login] has succeeded and the user has no profile document
    (none was there when [login] read it, and none is there at the end),
    the token entry of the cache has been written and the user-data entry
    has not: it is as it was before, and no call wrote it.  So a cache
    without a snapshot holds a token and no snapshot afterwards. *)
Theorem login_without_profile_document email password w u w1 :
  AuthService.login email password w = (Ok u, w1) →
  docs w1 !! uid u = None →
  ∃ (token : string) (calls : list call),
    storage w1 !! AUTH_TOKEN_KEY = Some (Text token) ∧
    storage w1 !! USER_DATA_KEY = storage w !! USER_DATA_KEY ∧
    trace w1 = (trace w ++ calls)%list ∧
    SetItem AUTH_TOKEN_KEY (Text token) ∈ calls ∧
    ∀ v, SetItem USER_DATA_KEY v ∉ calls.
Proof.
  intros Hlogin Hgone. unfold AuthService.login in Hlogin.
  apply rethrow_ok in Hlogin.
  apply bind_ok in Hlogin as (user & wa & Hsign & Hlogin).
  apply bind_ok in Hlogin as ([] & wb & Hupd & Hlogin).
  apply bind_ok in Hlogin as (userDoc & wc & Hget & Hlogin).
  apply bind_ok in Hlogin as ([] & wd & Hcache & Hlogin).
  apply bind_ok in Hlogin as (token & we & Htok & Hlogin).
  apply bind_ok in Hlogin as ([] & wf & Hset & Hret).
  injection Hret as <- <-.
  pose proof (signIn_frame email password w) as (Hs1 & _ & Ht1).
  pose proof (update_frame (uid user)
                (literal [("lastLoginAt", VServerTimestamp)]) wa) as (Hs2 & Ht2).
  pose proof (get_frame (uid user) wb) as (Hs3 & Ht3 & Hd3).
  pose proof (getIdToken_frame user wd) as (Hs5 & Hd5 & Ht5).
  pose proof (setItem_frame AUTH_TOKEN_KEY (Text token) we) as (Hd6 & Ht6 & Hs6).
  rewrite Hsign in *. rewrite Hupd in *. rewrite Hget in *.
  rewrite Htok in *. rewrite Hset in *. simpl in *.
  specialize (Hd3 _ eq_refl). specialize (Hs6 eq_refl).
  (* the profile read found no document: it is still absent at the end *)
  destruct userDoc as [userData|].
  { pose proof (setItem_frame USER_DATA_KEY
        (JSON_stringify
           (spread (literal [("uid", VStr (uid user)); ("email", email_value user)])
              (defined_fields [("name", userData !! "name");
                               ("birthdate", userData !! "birthdate");
                               ("diabetesType", userData !! "diabetesType")]))) wc)
      as (Hd4 & _).
    rewrite Hcache in Hd4. simpl in Hd4. congruence. }
  injection Hcache as <-.
  exists token, [ SignIn email password;
                  DocUpdate (uid user) (literal [("lastLoginAt", VServerTimestamp)]);
                  DocGet (uid user); GetIdToken (uid user);
                  SetItem AUTH_TOKEN_KEY (Text token) ].
  split_and!.
  - by rewrite Hs6, lookup_insert_eq.
  - rewrite Hs6, (lookup_insert_ne _ _ _ _ (not_eq_sym keys_distinct)). congruence.
  - rewrite Ht6, Ht5, Ht3, Ht2, Ht1, <-!app_assoc. done.
  - rewrite !elem_of_cons. tauto.
  - intros v Hv. rewrite !elem_of_cons, elem_of_nil in Hv.
    destruct Hv as [?|[?|[?|[?|[?|[]]]]]]; discriminate.
Qed.

(** Ann has logged out; while she logs in again another client deletes
    her profile document, after the last-login update and before the
    read. *)
Lemma login_without_profile_document_witness :
  let w := set_fs_env [Served; Elsewhere "uid:a@x.com" None]
             (AuthService.logout signed_in).2 in
  let w1 := (AuthService.login "a@x.com" "secret1" w).2 in
  storage w !! USER_DATA_KEY = None ∧
  (∃ token, storage w1 !! AUTH_TOKEN_KEY = Some (Text token)) ∧
  storage w1 !! USER_DATA_KEY = None.
Proof.
  intros w w1.
  assert (storage w !! USER_DATA_KEY = None) as Hempty by by_vm.
  assert ((AuthService.login "a@x.com" "secret1" w).1
          = Ok (mkUser "uid:a@x.com" (Some "a@x.com"))) as Hok by by_vm.
  assert (AuthService.login "a@x.com" "secret1" w
          = (Ok (mkUser "uid:a@x.com" (Some "a@x.com")), w1)) as Hlogin.
  { rewrite <-Hok. apply surjective_pairing. }
  destruct (login_without_profile_document _ _ _ _ _ Hlogin)
    as (token & calls & Htoken & Hdata & _); [by_vm|].
  split_and!;
    [exact Hempty | exists token; exact Htoken | exact (eq_trans Hdata Hempty)].
Defined.

(** ** The navigation signal *)

(** *** Functions that cannot tell two states apart *)

Section Respects.

Context {S : Type} (R : S → S → Prop).

Lemma respects_ret {A} (a : A) : respects R (ret a).
Proof. by intros s s' H. Qed.

Lemma respects_throw {A} e : respects R (@throw S A e).
Proof. by intros s s' H. Qed.

Lemma respects_bind {A B} (m : M S A) (k : A → M S B) :
  respects R m → (∀ a, respects R (k a)) → respects R (bind m k).
Proof.
  intros Hm Hk s s' H. unfold bind.
  destruct (Hm s s' H) as [Hr Hs].
  destruct (m s) as [[a|e] s1], (m s') as [[a'|e'] s1']; simplify_eq/=; [|done].
  by apply Hk.
Qed.

Lemma respects_try_catch {A} (body : M S A) (handler : error → M S A) :
  respects R body → (∀ e, respects R (handler e)) → respects R (try_catch body handler).
Proof.
  intros Hb Hh s s' H. unfold try_catch.
  destruct (Hb s s' H) as [Hr Hs].
  destruct (body s) as [[a|e] s1], (body s') as [[a'|e'] s1']; simplify_eq/=; [done|].
  by apply Hh.
Qed.

Lemma respects_try_finally {A} (body : M S A) (final : S → S) :
  respects R body → (∀ s s', R s s' → R (final s) (final s')) →
  respects R (try_finally body final).
Proof.
  intros Hb Hf s s' H. unfold try_finally.
  destruct (Hb s s' H) as [Hr Hs].
  destruct (body s) as [r s1], (body s') as [r' s1']; simplify_eq/=. split; [done|].
  by apply Hf.
Qed.

Lemma respects_modify (f : S → S) :
  (∀ s s', R s s' → R (f s) (f s')) → respects R (modify f).
Proof. intros Hf s s' H. split; [done|]. by apply Hf. Qed.

Lemma respects_gets {A} (f : S → A) :
  (∀ s s', R s s' → f s = f s') → respects R (gets f).
Proof. intros Hf s s' H. unfold gets. simpl. split; [|done]. f_equal. by apply Hf. Qed.

End Respects.

(** Two worlds that differ at most in the cached token have every other
    component in common. *)
Lemma same_but_token_inv w w' :
  same_but_token w w' ↔
  accounts w = accounts w' ∧ currentUser w = currentUser w' ∧
  auth_env w = auth_env w' ∧ docs w = docs w' ∧ clock w = clock w' ∧
  fs_env w = fs_env w' ∧
  delete AUTH_TOKEN_KEY (storage w) = delete AUTH_TOKEN_KEY (storage w') ∧
  storage_env w = storage_env w' ∧ trace w = trace w' ∧ console w = console w'.
Proof.
  unfold same_but_token, erase_token, set_storage.
  destruct w, w'; simpl. split.
  - intros [=]. by split_and!.
  - intros (-> & -> & -> & -> & -> & -> & -> & -> & -> & ->). done.
Qed.

Ltac token_cases :=
  let H := fresh in
  intros [acc cu aenv ds clk fenv sto senv tr con]
         [acc' cu' aenv' ds' clk' fenv' sto' senv' tr' con'] H;
  apply same_but_token_inv in H; simpl in H;
  destruct H as (-> & -> & -> & -> & -> & -> & Hsto & -> & -> & ->).

Ltac token_done :=
  try (apply same_but_token_inv; simpl; split_and!; done).

Lemma blind_console_error label e : respects same_but_token (console_error label e).
Proof. token_cases. split; [done|]. token_done. Qed.

Lemma blind_currentUser : respects same_but_token (gets currentUser).
Proof. token_cases. split; [done|]. token_done. Qed.

Lemma blind_auth_request {A} c (serve : M World A) :
  respects same_but_token serve → respects same_but_token (Auth.request c serve).
Proof.
  intros Hserve. token_cases. unfold Auth.request, record. simpl.
  destruct aenv' as [|[e|] rest]; simpl; [| split; [done|] |]; token_done.
  all: apply Hserve; token_done.
Qed.

Lemma blind_fs_request {A} c (serve : M World A) :
  respects same_but_token serve → respects same_but_token (Firestore.request c serve).
Proof.
  intros Hserve. token_cases. unfold Firestore.request, record. simpl.
  destruct fenv' as [|[|e|id [d|]] rest]; simpl; try (apply Hserve; token_done).
  split; [done|]. token_done.
Qed.

Lemma blind_storage_request {A} c (serve : M World A) :
  respects same_but_token serve → respects same_but_token (AsyncStorage.request c serve).
Proof.
  intros Hserve. token_cases. unfold AsyncStorage.request, record. simpl.
  destruct senv' as [|[e|] rest]; simpl; [| split; [done|] |]; token_done.
  all: apply Hserve; token_done.
Qed.

(** The provider's operations read and write accounts and live identity
    only. *)
Lemma blind_createUser email password :
  respects same_but_token (Auth.createUserWithEmailAndPassword email password).
Proof.
  apply blind_auth_request. token_cases. simpl.
  destruct (acc' !! email); simpl; (split; [done|]); token_done.
Qed.

Lemma blind_signIn email password :
  respects same_but_token (Auth.signInWithEmailAndPassword email password).
Proof.
  apply blind_auth_request. token_cases. simpl.
  repeat case_match; simpl; (split; [done|]); token_done.
Qed.

Lemma blind_signOut : respects same_but_token Auth.signOut.
Proof. apply blind_auth_request. token_cases. simpl. split; [done|]. token_done. Qed.

Lemma blind_getIdToken u : respects same_but_token (Auth.getIdToken u).
Proof. apply blind_auth_request, respects_ret. Qed.

Lemma blind_sendPasswordResetEmail email :
  respects same_but_token (Auth.sendPasswordResetEmail email).
Proof.
  apply blind_auth_request. token_cases. simpl.
  repeat case_match; simpl; (split; [done|]); token_done.
Qed.

Lemma blind_reauthenticateWithCredential u cred :
  respects same_but_token (Auth.reauthenticateWithCredential u cred).
Proof.
  apply blind_auth_request. token_cases. simpl.
  repeat case_match; simpl; (split; [done|]); token_done.
Qed.

Lemma blind_updatePassword u p : respects same_but_token (Auth.updatePassword u p).
Proof.
  apply blind_auth_request. token_cases. simpl.
  repeat case_match; simpl; (split; [done|]); token_done.
Qed.

Lemma blind_doc_set id data : respects same_but_token (Firestore.set id data).
Proof. apply blind_fs_request. token_cases. simpl. split; [done|]. token_done. Qed.

Lemma blind_doc_update id data : respects same_but_token (Firestore.update id data).
Proof.
  apply blind_fs_request. token_cases. simpl.
  repeat case_match; simpl; (split; [done|]); token_done.
Qed.

Lemma blind_doc_get id : respects same_but_token (Firestore.get id).
Proof. apply blind_fs_request. token_cases. split; [done|]. token_done. Qed.

(** The cache operations commute with erasing the token; reading any key
    but the token's gives the same answer. *)
Lemma blind_setItem key v : respects same_but_token (AsyncStorage.setItem key v).
Proof.
  apply blind_storage_request. token_cases. simpl. split; [done|].
  apply same_but_token_inv; simpl; split_and!; try done.
  destruct (decide (key = AUTH_TOKEN_KEY)) as [->|Hne].
  - by rewrite !delete_insert_eq.
  - by rewrite !(delete_insert_ne _ _ _ _ (not_eq_sym Hne)), Hsto.
Qed.

Lemma blind_removeItem key : respects same_but_token (AsyncStorage.removeItem key).
Proof.
  apply blind_storage_request. token_cases. simpl. split; [done|].
  apply same_but_token_inv; simpl; split_and!; try done.
  by rewrite (delete_delete _ AUTH_TOKEN_KEY key), Hsto, (delete_delete _ key).
Qed.

Lemma blind_getItem key :
  key ≠ AUTH_TOKEN_KEY → respects same_but_token (AsyncStorage.getItem key).
Proof.
  intros Hne. apply blind_storage_request. token_cases. unfold gets. simpl.
  split; [|token_done]. f_equal.
  by rewrite <-(lookup_delete_ne sto AUTH_TOKEN_KEY key),
             <-(lookup_delete_ne sto' AUTH_TOKEN_KEY key), Hsto.
Qed.

Lemma blind_JSON_parse s : respects same_but_token (JSON_parse s).
Proof. destruct s; [apply respects_throw | apply respects_ret]. Qed.

Create HintDb blind.
#[local] Hint Resolve respects_ret respects_throw respects_bind respects_try_catch
  blind_console_error blind_currentUser blind_createUser blind_signIn blind_signOut
  blind_getIdToken blind_sendPasswordResetEmail blind_reauthenticateWithCredential
  blind_updatePassword blind_doc_set blind_doc_update blind_doc_get
  blind_setItem blind_removeItem blind_getItem blind_JSON_parse keys_distinct : blind.

(** Applies the rules above through the body of a service function. *)
Ltac blind :=
  repeat first
    [ progress (intros)
    | apply respects_bind
    | apply respects_try_catch
    | apply respects_try_finally
    | solve [eauto with blind]
    | case_match ].

Lemma blind_getCurrentUser : respects same_but_token AuthService.getCurrentUser.
Proof. unfold AuthService.getCurrentUser. blind. Qed.

Lemma blind_register email password userData :
  respects same_but_token (AuthService.register email password userData).
Proof. unfold AuthService.register. blind. Qed.

Lemma blind_login email password :
  respects same_but_token (AuthService.login email password).
Proof. unfold AuthService.login. blind. Qed.

Lemma blind_logout : respects same_but_token AuthService.logout.
Proof. unfold AuthService.logout. blind. Qed.

Lemma blind_resetPassword email :
  respects same_but_token (AuthService.resetPassword email).
Proof. unfold AuthService.resetPassword. blind. Qed.

Lemma blind_updateUserProfile userData :
  respects same_but_token (AuthService.updateUserProfile userData).
Proof.
  pose proof blind_getCurrentUser.
  unfold AuthService.updateUserProfile. blind.
Qed.

Lemma blind_reauthenticate password :
  respects same_but_token (AuthService.reauthenticate password).
Proof. unfold AuthService.reauthenticate. blind. Qed.

Lemma blind_changePassword currentPassword newPassword :
  respects same_but_token (AuthService.changePassword currentPassword newPassword).
Proof.
  pose proof blind_reauthenticate.
  unfold AuthService.changePassword. blind.
Qed.

(** *** The provider *)

Lemma blind_service {A} (m : M World A) :
  respects same_but_token m → respects same_but_token_app (AuthContext.service m).
Proof.
  intros Hm [s w] [s' w'] [Hs Hw]. simpl in *. subst s'.
  unfold AuthContext.service. simpl.
  destruct (Hm w w' Hw) as [Hr Hw1].
  destruct (m w) as [r w1], (m w') as [r' w1']. simpl in *. by subst.
Qed.

Lemma blind_setCurrentUser f :
  respects same_but_token_app (AuthContext.setCurrentUser f).
Proof. intros [s w] [s' w'] [Hs Hw]. simpl in *. by subst. Qed.

Lemma blind_setError e : respects same_but_token_app (AuthContext.setError e).
Proof. intros [s w] [s' w'] [Hs Hw]. simpl in *. by subst. Qed.

Lemma blind_setLoading b a a' :
  same_but_token_app a a' →
  same_but_token_app (AuthContext.setLoading b a) (AuthContext.setLoading b a').
Proof. destruct a, a'. intros [Hs Hw]. simpl in *. by subst. Qed.

#[local] Hint Resolve blind_getCurrentUser blind_register blind_login blind_logout
  blind_resetPassword blind_updateUserProfile blind_changePassword
  blind_service blind_setCurrentUser blind_setError blind_setLoading
  respects_try_finally respects_modify : blind.

Lemma blind_step ev a a' :
  same_but_token_app a a' →
  same_but_token_app (AuthContext.step ev a) (AuthContext.step ev a').
Proof.
  intros H.
  destruct ev; simpl;
    match goal with |- same_but_token_app (?m a).2 (?m a').2 =>
      cut (respects same_but_token_app m); [intros Hm; by apply Hm|]
    end.
  - unfold AuthContext.onAuthStateChanged. blind.
  - unfold AuthContext.register. blind.
  - unfold AuthContext.login. blind.
  - unfold AuthContext.logout. blind.
  - unfold AuthContext.resetPassword. blind.
  - unfold AuthContext.updateProfile. blind.
  - unfold AuthContext.changePassword. blind.
Qed.

Lemma blind_run evs : ∀ a a',
  same_but_token_app a a' →
  same_but_token_app (AuthContext.run evs a) (AuthContext.run evs a').
Proof.
  induction evs as [|ev evs IH]; intros a a' H; [done|].
  simpl. by apply IH, blind_step.
Qed.

(** Only the identity-change callback and [updateProfile] assign
    [currentUser]. *)
Lemma step_assigns_currentUser ev a :
  AuthContext.currentUser (AuthContext.step ev a).1 ≠ AuthContext.currentUser a.1 →
  (∃ user, ev = AuthContext.AuthStateChanged user) ∨
  (∃ userData, ev = AuthContext.UpdateProfile userData).
Proof.
  destruct ev; eauto; intros Hne; exfalso; apply Hne; clear Hne.
  all: destruct a as [s w]; simpl.
  all: unfold AuthContext.register, AuthContext.login, AuthContext.logout,
         AuthContext.resetPassword, AuthContext.changePassword,
         AuthContext.service, AuthContext.setError, AuthContext.setLoading,
         try_finally, try_catch, bind, modify, ret, throw; simpl.
  all: repeat (case_match; simplify_eq/=); done.
Qed.

(** C10, as stated, fails: the provider's [currentUser] is not assigned
    by the identity-change callback only.  The provider reports Ann while
    the profile store is unreachable: the callback stores [null] and the
    navigator shows the sign-in screens.  A later [updateProfile] assigns
    [{ ...null, name: 'Bob' }], and the navigator shows the app. *)
Lemma updateProfile_assigns_currentUser :
  let u := mkUser "uid:a@x.com" (Some "a@x.com") in
  let a0 := (AuthContext.initial,
             set_fs_env [Rejected (SdkError "firestore/unavailable")] registered) in
  let a1 := AuthContext.step (AuthContext.AuthStateChanged (Some u)) a0 in
  let a2 := AuthContext.step
              (AuthContext.UpdateProfile (literal [ ("name", VStr "Bob") ])) a1 in
  AuthContext.currentUser a1.1 = None ∧
  AppNavigator.render false a1.1 = AppNavigator.AuthNavigator ∧
  AuthContext.currentUser a2.1 = Some (literal [ ("name", VStr "Bob") ]) ∧
  AppNavigator.render false a2.1 = AppNavigator.AppStack.
Proof. intros u a0 a1 a2. split_and!; by_vm. Qed.

(** C10, amended: the navigator shows the signed-in tree only when the
    provider's [currentUser] is non-null, and once loading is over
    exactly then; the context's [isAuthenticated] is that same test.
    [currentUser] is assigned by the identity-change callback and by
    [updateProfile], by nothing else.  And no sequence of events lets the
    provider's state depend on the token entry of the cache: the token
    fallback of the service's [isAuthenticated] plays no part in it. *)
Theorem navigation_signal_sources :
  (∀ initializing s,
     AppNavigator.render initializing s = AppNavigator.AppStack →
     AuthContext.currentUser s ≠ None) ∧
  (∀ s, AuthContext.loading s = false →
     AppNavigator.render false s =
       if AuthContext.isAuthenticated s
       then AppNavigator.AppStack else AppNavigator.AuthNavigator) ∧
  (∀ s, AuthContext.isAuthenticated s = true ↔ AuthContext.currentUser s ≠ None) ∧
  (∀ ev a,
     AuthContext.currentUser (AuthContext.step ev a).1 ≠ AuthContext.currentUser a.1 →
     (∃ user, ev = AuthContext.AuthStateChanged user) ∨
     (∃ userData, ev = AuthContext.UpdateProfile userData)) ∧
  (∀ evs s w w', same_but_token w w' →
     (AuthContext.run evs (s, w)).1 = (AuthContext.run evs (s, w')).1).
Proof.
  split_and!.
  - intros initializing [cu l e]. unfold AppNavigator.render. simpl.
    destruct (initializing || l), cu; done.
  - intros [cu l e]. unfold AppNavigator.render, AuthContext.isAuthenticated. simpl.
    intros ->. by destruct cu.
  - intros [cu l e]. unfold AuthContext.isAuthenticated. simpl.
    destruct cu; split; done.
  - apply step_assigns_currentUser.
  - intros evs s w w' H. by apply (blind_run evs (s, w) (s, w')).
Qed.

(** Whether or not Ann's token is in the cache, the provider ends in the
    same state when the identity provider reports her. *)
Lemma navigation_signal_sources_witness :
  let u := mkUser "uid:a@x.com" (Some "a@x.com") in
  (AuthContext.run [AuthContext.AuthStateChanged (Some u)]
     (AuthContext.initial, signed_in)).1
  = (AuthContext.run [AuthContext.AuthStateChanged (Some u)]
       (AuthContext.initial, erase_token signed_in)).1.
Proof.
  intros u.
  destruct navigation_signal_sources as (_ & _ & _ & _ & Hblind).
  apply Hblind. unfold same_but_token. by_vm.
Defined.

(** ** What the service keeps *)

Section Keeps.

Context {X : Type} (f : World → X).

Lemma keeps_weaken {A} (m : M World A) : keeps f m → keeps_on_error f m.
Proof. intros H w e _. apply H. Qed.

Lemma keeps_ret {A} (a : A) : keeps f (ret a).
Proof. done. Qed.

Lemma keeps_throw {A} e : keeps f (@throw World A e).
Proof. done. Qed.

Lemma keeps_bind {A B} (m : M World A) (k : A → M World B) :
  keeps f m → (∀ a, keeps f (k a)) → keeps f (bind m k).
Proof.
  intros Hm Hk w. unfold bind. specialize (Hm w).
  destruct (m w) as [[a|e] w1]; simpl in *; [|done].
  by rewrite Hk.
Qed.

Lemma keeps_on_error_bind {A B} (m : M World A) (k : A → M World B) :
  keeps f m → (∀ a, keeps_on_error f (k a)) → keeps_on_error f (bind m k).
Proof.
  intros Hm Hk w e. unfold bind. specialize (Hm w).
  destruct (m w) as [[a|e'] w1]; simpl in *; [|done].
  intros He. by rewrite (Hk a w1 e He).
Qed.

Lemma keeps_on_error_then_ret {A B} (m : M World A) (g : A → B) :
  keeps_on_error f m → keeps_on_error f (bind m (λ a, ret (g a))).
Proof.
  intros Hm w e. unfold bind, ret. specialize (Hm w).
  destruct (m w) as [[a|e'] w1]; simpl in *; [done|].
  intros _. by apply (Hm e').
Qed.

Lemma keeps_try_catch {A} (body : M World A) handler :
  keeps f body → (∀ e, keeps f (handler e)) → keeps f (try_catch body handler).
Proof.
  intros Hb Hh w. unfold try_catch. specialize (Hb w).
  destruct (body w) as [[a|e] w1]; simpl in *; [done|].
  by rewrite Hh.
Qed.

Lemma keeps_on_error_rethrow {A} (body : M World A) label :
  data_only f → keeps_on_error f body →
  keeps_on_error f
    (try_catch body (λ error, console_error label error ;; throw error)).
Proof.
  intros Hf Hb w e. unfold try_catch.
  specialize (Hb w).
  destruct (body w) as [[a|e'] w1]; simpl in *; [done|].
  intros _. rewrite <-(Hb e' eq_refl). apply Hf. by repeat split.
Qed.

Lemma keeps_console_error label e : data_only f → keeps f (console_error label e).
Proof. intros Hf w. apply Hf. by repeat split. Qed.

(** Every client call that is rejected leaves the data as it was. *)
Lemma auth_request_on_error {A} c (serve : M World A) :
  data_only f → keeps_on_error f serve → keeps_on_error f (Auth.request c serve).
Proof.
  intros Hf Hs w e. unfold Auth.request.
  destruct (auth_env (record c w)) as [|[e'|] rest] eqn:Henv; simpl.
  - intros He. rewrite (Hs _ _ He). apply Hf. by repeat split.
  - intros _. apply Hf. by repeat split.
  - intros He. rewrite (Hs _ _ He). apply Hf. by repeat split.
Qed.

End Keeps.

(** *** What each client call keeps *)

Lemma keeps_map {X Y A} (f : World → X) (g : X → Y) (m : M World A) :
  keeps f m → keeps (λ w, g (f w)) m.
Proof. intros H w. by rewrite H. Qed.

Lemma keeps_on_error_map {X Y A} (f : World → X) (g : X → Y) (m : M World A) :
  keeps_on_error f m → keeps_on_error (λ w, g (f w)) m.
Proof. intros H w e He. by rewrite (H w e He). Qed.

Ltac client_cases :=
  intros [acc cu aenv ds clk fenv sto senv tr con];
  unfold Auth.request, Firestore.request, AsyncStorage.request, record,
    ret, gets, modify; simpl;
  try destruct aenv as [|[?|] ?]; try destruct fenv as [|[|?|? [?|]] ?];
  try destruct senv as [|[?|] ?]; simpl; repeat case_match; simpl; try done.

(** The identity provider never touches the cache or the documents. *)
Lemma auth_keeps_storage :
  (∀ e p, keeps storage (Auth.createUserWithEmailAndPassword e p)) ∧
  (∀ e p, keeps storage (Auth.signInWithEmailAndPassword e p)) ∧
  keeps storage Auth.signOut ∧
  (∀ u, keeps storage (Auth.getIdToken u)) ∧
  (∀ e, keeps storage (Auth.sendPasswordResetEmail e)) ∧
  (∀ u c, keeps storage (Auth.reauthenticateWithCredential u c)) ∧
  (∀ u p, keeps storage (Auth.updatePassword u p)).
Proof.
  unfold Auth.createUserWithEmailAndPassword, Auth.signInWithEmailAndPassword,
    Auth.signOut, Auth.getIdToken, Auth.sendPasswordResetEmail,
    Auth.reauthenticateWithCredential, Auth.updatePassword.
  split_and!; intros; client_cases.
Qed.

Lemma auth_keeps_docs :
  (∀ e p, keeps docs (Auth.createUserWithEmailAndPassword e p)) ∧
  (∀ e p, keeps docs (Auth.signInWithEmailAndPassword e p)) ∧
  keeps docs Auth.signOut ∧
  (∀ u, keeps docs (Auth.getIdToken u)) ∧
  (∀ e, keeps docs (Auth.sendPasswordResetEmail e)) ∧
  (∀ u c, keeps docs (Auth.reauthenticateWithCredential u c)) ∧
  (∀ u p, keeps docs (Auth.updatePassword u p)).
Proof.
  unfold Auth.createUserWithEmailAndPassword, Auth.signInWithEmailAndPassword,
    Auth.signOut, Auth.getIdToken, Auth.sendPasswordResetEmail,
    Auth.reauthenticateWithCredential, Auth.updatePassword.
  split_and!; intros; client_cases.
Qed.

(** The profile store never touches the cache or the live identity. *)
Lemma firestore_keeps_storage :
  (∀ id d, keeps storage (Firestore.set id d)) ∧
  (∀ id d, keeps storage (Firestore.update id d)) ∧
  (∀ id, keeps storage (Firestore.get id)).
Proof.
  unfold Firestore.set, Firestore.update, Firestore.get.
  split_and!; intros; client_cases.
Qed.

Lemma firestore_keeps_currentUser :
  (∀ id d, keeps currentUser (Firestore.set id d)) ∧
  (∀ id d, keeps currentUser (Firestore.update id d)) ∧
  (∀ id, keeps currentUser (Firestore.get id)).
Proof.
  unfold Firestore.set, Firestore.update, Firestore.get.
  split_and!; intros; client_cases.
Qed.

(** The cache never touches the live identity or the documents, a failed
    cache call changes nothing, and writing one key leaves the others. *)
Lemma storage_keeps_currentUser :
  (∀ k v, keeps currentUser (AsyncStorage.setItem k v)) ∧
  (∀ k, keeps currentUser (AsyncStorage.getItem k)) ∧
  (∀ k, keeps currentUser (AsyncStorage.removeItem k)).
Proof.
  unfold AsyncStorage.setItem, AsyncStorage.getItem, AsyncStorage.removeItem.
  split_and!; intros; client_cases.
Qed.

Lemma storage_keeps_docs :
  (∀ k v, keeps docs (AsyncStorage.setItem k v)) ∧
  (∀ k, keeps docs (AsyncStorage.getItem k)) ∧
  (∀ k, keeps docs (AsyncStorage.removeItem k)).
Proof.
  unfold AsyncStorage.setItem, AsyncStorage.getItem, AsyncStorage.removeItem.
  split_and!; intros; client_cases.
Qed.

Lemma storage_keeps_on_error :
  (∀ k v, keeps_on_error storage (AsyncStorage.setItem k v)) ∧
  (∀ k, keeps storage (AsyncStorage.getItem k)) ∧
  (∀ k, keeps_on_error storage (AsyncStorage.removeItem k)).
Proof.
  unfold AsyncStorage.setItem, AsyncStorage.getItem, AsyncStorage.removeItem.
  split_and!; intros; client_cases.
Qed.

Lemma setItem_keeps_other k k' v :
  k ≠ k' → keeps (λ w, storage w !! k') (AsyncStorage.setItem k v).
Proof.
  intros Hne. unfold AsyncStorage.setItem. client_cases.
  all: by rewrite lookup_insert_ne.
Qed.

Lemma getIdToken_keeps_currentUser u : keeps currentUser (Auth.getIdToken u).
Proof. unfold Auth.getIdToken. client_cases. Qed.

(** ** Failing writes *)

Lemma data_only_storage : data_only storage.
Proof. by intros w w' (_ & _ & _ & _ & ?). Qed.

Lemma data_only_token : data_only (λ w, storage w !! AUTH_TOKEN_KEY).
Proof. intros w w' (_ & _ & _ & _ & Hs). by rewrite Hs. Qed.

Lemma getCurrentUser_keeps_storage : keeps storage AuthService.getCurrentUser.
Proof.
  unfold AuthService.getCurrentUser.
  apply keeps_try_catch.
  - apply keeps_bind; [done|]. intros cu.
    apply keeps_bind.
    + destruct cu as [u|]; [|done].
      apply keeps_bind; [apply firestore_keeps_storage|]. by intros [d|].
    + intros [session|]; [done|].
      apply keeps_bind; [apply storage_keeps_on_error|].
      intros [s|]; [|done]. destruct (nonempty s); [|done].
      apply keeps_bind; [by destruct s|done].
  - intros e. apply keeps_bind; [|done].
    apply keeps_console_error, data_only_storage.
Qed.

(** X3: A [register] or an [updateUserProfile] that raises has not written
    the cache. *)
Theorem failed_write_keeps_cache w e :
  (∀ email password userData,
     (AuthService.register email password userData w).1 = Err e →
     storage (AuthService.register email password userData w).2 = storage w) ∧
  (∀ userData,
     (AuthService.updateUserProfile userData w).1 = Err e →
     storage (AuthService.updateUserProfile userData w).2 = storage w).
Proof.
  split.
  - intros email password userData.
    apply (keeps_on_error_rethrow storage); [apply data_only_storage|].
    apply keeps_on_error_bind; [apply auth_keeps_storage|]. intros u.
    apply keeps_on_error_bind; [apply firestore_keeps_storage|]. intros _.
    apply (keeps_on_error_then_ret storage _ (λ _, u)), storage_keeps_on_error.
  - intros userData.
    apply (keeps_on_error_rethrow storage); [apply data_only_storage|].
    apply keeps_on_error_bind; [done|]. intros [u|]; [|by apply keeps_weaken].
    apply keeps_on_error_bind; [apply firestore_keeps_storage|]. intros _.
    apply keeps_on_error_bind; [apply getCurrentUser_keeps_storage|]. intros session.
    apply storage_keeps_on_error.
Qed.

(** X2: A [login] that raises has not written the token, whatever it did to
    the snapshot before. *)
Theorem failed_login_keeps_token email password w e :
  (AuthService.login email password w).1 = Err e →
  storage (AuthService.login email password w).2 !! AUTH_TOKEN_KEY
  = storage w !! AUTH_TOKEN_KEY.
Proof.
  pose proof (λ {A} (m : M World A), keeps_map storage (λ s, s !! AUTH_TOKEN_KEY) m) as Hmap.
  apply (keeps_on_error_rethrow (λ w, storage w !! AUTH_TOKEN_KEY));
    [apply data_only_token|].
  apply keeps_on_error_bind; [apply Hmap, auth_keeps_storage|]. intros u.
  apply keeps_on_error_bind; [apply Hmap, firestore_keeps_storage|]. intros _.
  apply keeps_on_error_bind; [apply Hmap, firestore_keeps_storage|]. intros userDoc.
  apply keeps_on_error_bind.
  { destruct userDoc; [|done]. apply setItem_keeps_other, keys_distinct. }
  intros _.
  apply keeps_on_error_bind; [apply Hmap, auth_keeps_storage|]. intros token.
  apply (keeps_on_error_then_ret _ _ (λ _, u)).
  apply (keeps_on_error_map storage (λ s, s !! AUTH_TOKEN_KEY)), storage_keeps_on_error.
Qed.

(** ** Login, logout and password reset, end to end *)

Lemma signIn_ok address password w u w1 :
  Auth.signInWithEmailAndPassword address password w = (Ok u, w1) →
  currentUser w1 = Some u ∧ email u = Some address.
Proof.
  unfold Auth.signInWithEmailAndPassword, Auth.request, record.
  destruct w as [acc cu aenv ds clk fenv sto senv tr con]. simpl.
  destruct aenv as [|[?|] ?]; simpl; repeat case_match; by intros [= <- <-].
Qed.

(** X1: After a successful [login] the identity is live, the token is
    cached, and when the user's profile document exists the cached
    snapshot is the identity fields with the document's name, birthdate
    and diabetes type. *)
Theorem login_success address password w u w1 :
  AuthService.login address password w = (Ok u, w1) →
  currentUser w1 = Some u ∧
  email u = Some address ∧
  (∃ token, storage w1 !! AUTH_TOKEN_KEY = Some (Text token)) ∧
  (∀ userData, docs w1 !! uid u = Some userData →
     storage w1 !! USER_DATA_KEY = Some (JSON_stringify (login_snapshot u userData))).
Proof.
  intros Hlogin. unfold AuthService.login in Hlogin.
  apply rethrow_ok in Hlogin.
  apply bind_ok in Hlogin as (user & wa & Hsign & Hlogin).
  apply bind_ok in Hlogin as ([] & wb & Hupd & Hlogin).
  apply bind_ok in Hlogin as (userDoc & wc & Hget & Hlogin).
  apply bind_ok in Hlogin as ([] & wd & Hcache & Hlogin).
  apply bind_ok in Hlogin as (token & we & Htok & Hlogin).
  apply bind_ok in Hlogin as ([] & wf & Hset & Hret).
  injection Hret as <- <-.
  apply signIn_ok in Hsign as [Hcu Hemail].
  destruct firestore_keeps_currentUser as (_ & Hk2 & Hk3).
  destruct storage_keeps_currentUser as (Hk4 & _ & _).
  pose proof (Hk2 (uid user) (literal [("lastLoginAt", VServerTimestamp)]) wa) as H2.
  pose proof (Hk3 (uid user) wb) as H3.
  pose proof (getIdToken_keeps_currentUser user wd) as H5.
  pose proof (Hk4 AUTH_TOKEN_KEY (Text token) we) as H6.
  pose proof (get_frame (uid user) wb) as (_ & _ & Hd3).
  pose proof (getIdToken_frame user wd) as (Hs5 & Hd5 & _).
  pose proof (setItem_frame AUTH_TOKEN_KEY (Text token) we) as (Hd6 & _ & Hs6).
  rewrite Hupd in H2. rewrite Hget in H3, Hd3. rewrite Htok in H5, Hs5, Hd5.
  rewrite Hset in H6, Hs6, Hd6. simpl in *.
  specialize (Hd3 _ eq_refl). specialize (Hs6 eq_refl).
  assert (currentUser wd = currentUser wc ∧ docs wd = docs wc ∧
          (∀ userData, userDoc = Some userData →
             storage wd !! USER_DATA_KEY
             = Some (JSON_stringify (login_snapshot user userData)))) as (H4 & Hd4 & Hs4).
  { destruct userDoc as [userData|].
    - pose proof (Hk4 USER_DATA_KEY (JSON_stringify (login_snapshot user userData)) wc) as H4.
      pose proof (setItem_frame USER_DATA_KEY
                    (JSON_stringify (login_snapshot user userData)) wc) as (Hd4 & _ & Hs4).
      unfold login_snapshot, identity_fields in *.
      rewrite Hcache in H4, Hd4, Hs4. simpl in *.
      split_and!; [done|done|]. intros ? [= <-].
      by rewrite (Hs4 eq_refl), lookup_insert_eq.
    - injection Hcache as <-. by split_and!. }
  split_and!.
  - congruence.
  - done.
  - exists token. by rewrite Hs6, lookup_insert_eq.
  - intros userData Hdoc.
    rewrite Hs6, (lookup_insert_ne _ _ _ _ (not_eq_sym keys_distinct)), Hs5.
    apply Hs4. congruence.
Qed.

(** X4: Once [logout] has returned normally there is no live identity and the
    cache is empty, so both status queries report that nobody is signed
    in, whether or not the cache can be read. *)
Theorem logout_then_status w w1 :
  AuthService.logout w = (Ok (), w1) →
  currentUser w1 = None ∧
  (AuthService.isAuthenticated w1).1 = Ok false ∧
  (AuthService.getCurrentUser w1).1 = Ok None.
Proof.
  intros Hout.
  assert (currentUser w1 = None ∧ storage w1 !! USER_DATA_KEY = None ∧
          storage w1 !! AUTH_TOKEN_KEY = None) as (Hcu & Hdata & Htoken).
  { revert Hout.
    unfold AuthService.logout, Auth.signOut, AsyncStorage.removeItem,
      Auth.request, AsyncStorage.request, try_catch, bind, throw, modify,
      console_error, record.
    destruct w as [acc cu aenv ds clk fenv sto senv tr con]. simpl.
    destruct aenv as [|[e0|] aenv]; simpl; [|done|].
    all: destruct senv as [|[e1|] [|[e2|] senv]]; simpl; try done.
    all: intros [= <-]; simpl; split_and!; [done|..].
    all: by rewrite ?lookup_delete_eq,
              ?(lookup_delete_ne _ _ _ (not_eq_sym keys_distinct)), ?lookup_delete_eq. }
  split_and!; [done|..].
  - unfold AuthService.isAuthenticated, AsyncStorage.getItem, AsyncStorage.request,
      try_catch, bind, gets, ret, console_error, modify, record.
    destruct w1 as [acc cu aenv ds clk fenv sto senv tr con]. simpl in *. subst cu.
    destruct senv as [|[e|] senv]; simpl; rewrite ?Htoken; done.
  - unfold AuthService.getCurrentUser, AsyncStorage.getItem, AsyncStorage.request,
      try_catch, bind, gets, ret, console_error, modify, record.
    destruct w1 as [acc cu aenv ds clk fenv sto senv tr con]. simpl in *. subst cu.
    destruct senv as [|[e|] senv]; simpl; rewrite ?Hdata; done.
Qed.

(** X5: [resetPassword] is the provider's reset-e-mail call and nothing else:
    it resolves or raises as that call does, issues that one call, and
    leaves accounts, live identity, documents and cache as they were. *)
Theorem resetPassword_only_delegates email w :
  let r := AuthService.resetPassword email w in
  r.1 = (Auth.sendPasswordResetEmail email w).1 ∧
  trace r.2 = (trace w ++ [SendPasswordResetEmail email])%list ∧
  unchanged w r.2.
Proof.
  unfold AuthService.resetPassword, Auth.sendPasswordResetEmail, Auth.request,
    try_catch, bind, throw, console_error, modify, record, unchanged.
  destruct w as [acc cu aenv ds clk fenv sto senv tr con]. simpl.
  destruct aenv as [|[e|] aenv]; simpl; repeat case_match; simplify_eq/=; done.
Qed.

(** ** Changing the password; logging *)

(** With the provider reachable, [reauthenticate] tells whether the
    password is the one the live identity's account holds. *)
Lemma reauthenticate_checks_password password w u e p :
  currentUser w = Some u → email u = Some e → e ≠ "" →
  accounts w !! e = Some (mkAccount (uid u) p) →
  auth_rejection w = None →
  (AuthService.reauthenticate password w).1 = Ok (bool_decide (p = password)).
Proof.
  unfold AuthService.reauthenticate, Auth.reauthenticateWithCredential, Auth.request,
    Auth.credential, try_catch, bind, gets, ret, throw, console_error, modify, record,
    auth_rejection.
  destruct w as [acc cu aenv ds clk fenv sto senv tr con]. simpl.
  intros -> He Hne Hacc Hrej. rewrite He.
  destruct (String.eqb_spec e "") as [?|_]; [done|].
  destruct aenv as [|[e0|] aenv]; simplify_eq/=.
  all: rewrite Hacc; simpl; rewrite String.eqb_refl; simpl.
  all: destruct (String.eqb_spec p password) as [->|Hp]; simpl.
  all: by case_bool_decide.
Qed.

(** X6: A [changePassword] that resolves has re-authenticated with the
    current password and then set the new one, in two provider calls; the
    account now holds the new password, so with the provider reachable a
    later [reauthenticate] accepts the new password and no other. *)
Theorem changePassword_success currentPassword newPassword w b w1 :
  AuthService.changePassword currentPassword newPassword w = (Ok b, w1) →
  b = true ∧
  ∃ u e, currentUser w1 = Some u ∧ email u = Some e ∧
    trace w1 = (trace w ++ [ Reauthenticate e currentPassword;
                             UpdatePassword newPassword ])%list ∧
    accounts w1 !! e = Some (mkAccount (uid u) newPassword) ∧
    (auth_rejection w1 = None →
     ∀ password,
       (AuthService.reauthenticate password w1).1
       = Ok (bool_decide (newPassword = password))).
Proof.
  intros Hchange.
  assert (b = true ∧ ∃ u e, currentUser w1 = Some u ∧ email u = Some e ∧ e ≠ "" ∧
            trace w1 = (trace w ++ [ Reauthenticate e currentPassword;
                                     UpdatePassword newPassword ])%list ∧
            accounts w1 !! e = Some (mkAccount (uid u) newPassword))
    as (-> & u & e & Hcu & He & Hne & Htr & Hacc).
  { revert Hchange.
    unfold AuthService.changePassword, AuthService.reauthenticate,
      Auth.reauthenticateWithCredential, Auth.updatePassword, Auth.request,
      Auth.credential, try_catch, bind, gets, ret, throw, console_error, modify, record.
    destruct w as [acc cu aenv ds clk fenv sto senv tr con]. simpl.
    destruct cu as [u|]; simpl; [|done].
    destruct (email u) as [e|] eqn:He; simpl; [|done].
    destruct (String.eqb_spec e "") as [?|Hne]; simpl; [done|].
    destruct aenv as [|[e0|] [|[e1|] aenv]]; simpl; try done.
    all: destruct (acc !! e) as [a|] eqn:Hacc; simpl; try done.
    all: destruct (String.eqb_spec (acc_uid a) (uid u)) as [Huid|?]; simpl; try done.
    all: destruct (String.eqb (acc_password a) currentPassword); simpl; try done.
    all: rewrite ?He; simpl; rewrite ?Hacc; simpl.
    all: intros [= <- <-]; simpl; split; [done|]; exists u, e.
    all: rewrite <-?app_assoc, ?lookup_insert_eq, ?Huid; by split_and!. }
  split; [done|]. exists u, e. split_and!; try done.
  intros Hrej password. by eapply reauthenticate_checks_password.
Qed.

(** X7: Each of the six operations that propagate errors logs the error it
    raises, under its own label, as the last console entry. *)
Theorem raised_errors_are_logged w e w1 :
  (∀ email password userData,
     AuthService.register email password userData w = (Err e, w1) →
     last (console w1) = Some ("Registration error:", e)) ∧
  (∀ email password,
     AuthService.login email password w = (Err e, w1) →
     last (console w1) = Some ("Login error:", e)) ∧
  (AuthService.logout w = (Err e, w1) →
     last (console w1) = Some ("Logout error:", e)) ∧
  (∀ userData,
     AuthService.updateUserProfile userData w = (Err e, w1) →
     last (console w1) = Some ("Update profile error:", e)) ∧
  (∀ email,
     AuthService.resetPassword email w = (Err e, w1) →
     last (console w1) = Some ("Password reset error:", e)) ∧
  (∀ currentPassword newPassword,
     AuthService.changePassword currentPassword newPassword w = (Err e, w1) →
     last (console w1) = Some ("Change password error:", e)).
Proof.
  assert (∀ {A} (body : M World A) label,
            try_catch body (λ error, console_error label error ;; throw error) w
            = (Err e, w1) →
            last (console w1) = Some (label, e)) as Hlog.
  { intros A body label. unfold try_catch, bind, console_error, modify, throw.
    destruct (body w) as [[a|e'] w0]; [done|]. simpl.
    intros [= <- <-]. simpl. by rewrite last_snoc. }
  split_and!; intros; by eapply Hlog.
Qed.

(** ** Registering twice *)

Lemma register_taken email password userData w a :
  accounts w !! email = Some a → auth_rejection w = None →
  (AuthService.register email password userData w).1
  = Err (SdkError "auth/email-already-in-use").
Proof.
  unfold AuthService.register, Auth.createUserWithEmailAndPassword, Auth.request,
    try_catch, bind, throw, console_error, modify, record, auth_rejection.
  destruct w as [acc cu aenv ds clk fenv sto senv tr con]. simpl.
  intros Hacc Hrej. destruct aenv as [|[e0|] aenv]; simplify_eq/=.
  all: by rewrite Hacc.
Qed.

(** X8: when the account was created and the profile document could not
    be written, the address is taken: with the identity provider
    reachable, registering again with it, whatever the password and the
    profile fields, is rejected as a duplicate. *)
Theorem register_retry_after_partial_failure email password userData w u e :
  (Auth.createUserWithEmailAndPassword email password w).1 = Ok u →
  fs_rejection w = Some e →
  let w1 := (AuthService.register email password userData w).2 in
  auth_rejection w1 = None →
  ∀ password' userData',
    (AuthService.register email password' userData' w1).1
    = Err (SdkError "auth/email-already-in-use").
Proof.
  intros Hcreate Hrej w1 Hauth password' userData'.
  destruct (register_outcome email password userData w) as [_ Hfail].
  destruct (Hfail u e Hcreate Hrej) as (_ & Hacc & _).
  by eapply register_taken.
Qed.

Lemma run_eq {S A} (m : M S A) s r : (m s).1 = r → m s = (r, (m s).2).
Proof. intros <-. apply surjective_pairing. Qed.

Lemma register_retry_after_partial_failure_witness :
  let w := set_fs_env [Rejected (SdkError "firestore/unavailable")] empty_world in
  let w1 := (AuthService.register "a@x.com" "secret1" ann w).2 in
  (AuthService.register "a@x.com" "secret1" ann w1).1
  = Err (SdkError "auth/email-already-in-use").
Proof.
  intros w w1.
  apply (register_retry_after_partial_failure "a@x.com" "secret1" ann w
           (mkUser "uid:a@x.com" (Some "a@x.com")) (SdkError "firestore/unavailable"));
    by_vm.
Defined.

Lemma failed_login_keeps_token_witness :
  let w := set_auth_env [None; Some (SdkError "auth/network-request-failed")]
             (AuthService.logout signed_in).2 in
  let r := AuthService.login "a@x.com" "secret1" w in
  r.1 = Err (SdkError "auth/network-request-failed") ∧
  storage w !! USER_DATA_KEY = None ∧
  is_Some (storage r.2 !! USER_DATA_KEY) ∧
  storage r.2 !! AUTH_TOKEN_KEY = None.
Proof.
  intros w r.
  assert (r.1 = Err (SdkError "auth/network-request-failed")) as Herr by by_vm.
  pose proof (failed_login_keeps_token "a@x.com" "secret1" w _ Herr) as Htoken.
  split_and!; [exact Herr | by_vm | | ].
  - exists (Json (login_snapshot (mkUser "uid:a@x.com" (Some "a@x.com"))
                    (literal [ ("name", VStr "Ann"); ("birthdate", VNull);
                               ("diabetesType", VStr "Type 1") ]))).
    by_vm.
  - etransitivity; [exact Htoken|by_vm].
Defined.

Lemma login_success_witness :
  currentUser signed_in = Some (mkUser "uid:a@x.com" (Some "a@x.com")) ∧
  ∃ token, storage signed_in !! AUTH_TOKEN_KEY = Some (Text token).
Proof.
  assert (AuthService.login "a@x.com" "secret1" registered
          = (Ok (mkUser "uid:a@x.com" (Some "a@x.com")), signed_in)) as Hlogin.
  { apply (run_eq (AuthService.login "a@x.com" "secret1") registered). by_vm. }
  destruct (login_success _ _ _ _ _ Hlogin) as (Hcu & _ & Htoken & _).
  split; [exact Hcu | exact Htoken].
Defined.

Lemma logout_then_status_witness :
  (AuthService.isAuthenticated (AuthService.logout signed_in).2).1 = Ok false ∧
  (AuthService.getCurrentUser (AuthService.logout signed_in).2).1 = Ok None.
Proof.
  assert (AuthService.logout signed_in = (Ok (), (AuthService.logout signed_in).2))
    as Hout.
  { apply (run_eq AuthService.logout signed_in). by_vm. }
  destruct (logout_then_status _ _ Hout) as (_ & Hauth & Hsession).
  split; [exact Hauth | exact Hsession].
Defined.

Lemma changePassword_success_witness :
  let r := AuthService.changePassword "secret1" "secret2" signed_in in
  r.1 = Ok true ∧
  (AuthService.reauthenticate "secret2" r.2).1 = Ok true ∧
  (AuthService.reauthenticate "secret1" r.2).1 = Ok false.
Proof.
  intros r.
  assert (r.1 = Ok true) as Hok by by_vm.
  destruct (changePassword_success "secret1" "secret2" signed_in true r.2)
    as (_ & u & e & _ & _ & _ & _ & Hre).
  { apply (run_eq (AuthService.changePassword "secret1" "secret2") signed_in), Hok. }
  assert (auth_rejection r.2 = None) as Hrej by by_vm.
  split_and!; [exact Hok | exact (Hre Hrej "secret2") | exact (Hre Hrej "secret1")].
Defined.

Lemma failed_write_keeps_cache_witness :
  let w := set_fs_env [Rejected (SdkError "firestore/unavailable")] registered in
  storage (AuthService.updateUserProfile (literal [ ("name", VStr "Bob") ]) w).2
  = storage w.
Proof.
  intros w.
  destruct (failed_write_keeps_cache w (SdkError "firestore/unavailable")) as [_ H].
  apply H. by_vm.
Defined.

Lemma raised_errors_are_logged_witness :
  let w := set_auth_env [Some (SdkError "auth/network-request-failed")] signed_in in
  last (console (AuthService.logout w).2)
  = Some ("Logout error:", SdkError "auth/network-request-failed").
Proof.
  intros w.
  destruct (raised_errors_are_logged w (SdkError "auth/network-request-failed")
              (AuthService.logout w).2) as (_ & _ & H & _).
  apply H. apply (run_eq AuthService.logout w). by_vm.
Defined.

(** ** The provider's functions *)

Ltac context_cases m :=
  unfold AuthContext.service, AuthContext.setError, AuthContext.setLoading,
    AuthContext.setCurrentUser, try_finally, try_catch, bind, modify, ret, throw;
  simpl; destruct m as [[?|?] ?]; simpl;
  repeat match goal with u : unit |- _ => destruct u end; done.

(** X9: The identity-change callback ends the loading phase.  Called with
    [null] it clears [currentUser] and touches nothing else, the cache
    included; called with a user it stores whatever [getCurrentUser]
    yields, which may be [null], and never the user object it was given
    (its [catch] branch cannot run, since [getCurrentUser] never raises). *)
Theorem onAuthStateChanged_sets_session user s w :
  let a := AuthContext.step (AuthContext.AuthStateChanged user) (s, w) in
  AuthContext.loading a.1 = false ∧
  AuthContext.error a.1 = AuthContext.error s ∧
  match user with
  | None => AuthContext.currentUser a.1 = None ∧ a.2 = w
  | Some _ =>
      Ok (AuthContext.currentUser a.1) = (AuthService.getCurrentUser w).1 ∧
      a.2 = (AuthService.getCurrentUser w).2
  end.
Proof.
  destruct user as [u|]; simpl; [|done].
  unfold AuthContext.onAuthStateChanged, AuthContext.service,
    AuthContext.setCurrentUser, AuthContext.setLoading,
    try_catch, bind, modify. simpl.
  destruct (getCurrentUser_resolves w) as [session Hs].
  destruct (AuthService.getCurrentUser w) as [[session'|e] w'];
    simpl in *; by simplify_eq.
Qed.

(** X10: Each function the provider hands to the screens resolves or raises
    exactly as the service function it wraps and acts on the world as
    that one does; afterwards [loading] is off and [error] holds the
    message of the rejection, or nothing.  None of them but
    [updateProfile] changes [currentUser]. *)
Theorem context_wraps_service s w :
  (∀ email password userData,
     let r := AuthContext.register email password userData (s, w) in
     let q := AuthService.register email password userData w in
     r.1 = q.1 ∧ r.2.2 = q.2 ∧
     r.2.1 = AuthContext.mkState (AuthContext.currentUser s) false (reported q.1)) ∧
  (∀ email password,
     let r := AuthContext.login email password (s, w) in
     let q := AuthService.login email password w in
     r.1 = q.1 ∧ r.2.2 = q.2 ∧
     r.2.1 = AuthContext.mkState (AuthContext.currentUser s) false (reported q.1)) ∧
  (let r := AuthContext.logout (s, w) in
   let q := AuthService.logout w in
   r.1 = q.1 ∧ r.2.2 = q.2 ∧
   r.2.1 = AuthContext.mkState (AuthContext.currentUser s) false (reported q.1)) ∧
  (∀ email,
     let r := AuthContext.resetPassword email (s, w) in
     let q := AuthService.resetPassword email w in
     r.1 = q.1 ∧ r.2.2 = q.2 ∧
     r.2.1 = AuthContext.mkState (AuthContext.currentUser s) false (reported q.1)) ∧
  (∀ currentPassword newPassword,
     let r := AuthContext.changePassword currentPassword newPassword (s, w) in
     let q := AuthService.changePassword currentPassword newPassword w in
     r.1 = q.1 ∧ r.2.2 = q.2 ∧
     r.2.1 = AuthContext.mkState (AuthContext.currentUser s) false (reported q.1)) ∧
  (∀ userData,
     let r := AuthContext.updateProfile userData (s, w) in
     let q := AuthService.updateUserProfile userData w in
     r.1 = q.1 ∧ r.2.2 = q.2 ∧
     r.2.1 = AuthContext.mkState
               (match q.1 with
                | Ok _ => Some (spread (nullable (AuthContext.currentUser s)) userData)
                | Err _ => AuthContext.currentUser s
                end) false (reported q.1)).
Proof.
  cbv zeta. split; [|split; [|split; [|split; [|split]]]].
  - intros e p d. unfold AuthContext.register.
    context_cases (AuthService.register e p d w).
  - intros e p. unfold AuthContext.login.
    context_cases (AuthService.login e p w).
  - unfold AuthContext.logout. context_cases (AuthService.logout w).
  - intros e. unfold AuthContext.resetPassword.
    context_cases (AuthService.resetPassword e w).
  - intros p p'. unfold AuthContext.changePassword.
    context_cases (AuthService.changePassword p p' w).
  - intros d. unfold AuthContext.updateProfile.
    context_cases (AuthService.updateUserProfile d w).
Qed.

(** X11: After every event the provider is no longer loading, so a navigator
    that has finished initialising shows one of the two screen trees. *)
Theorem every_event_ends_loading ev a :
  AuthContext.loading (AuthContext.step ev a).1 = false ∧
  AppNavigator.render false (AuthContext.step ev a).1 ≠ AppNavigator.LoadingIndicator.
Proof.
  assert (AuthContext.loading (AuthContext.step ev a).1 = false) as Hl.
  { destruct a as [s w],
      ev as [[u|]|e p d|e p| |e|d|p p']; simpl; [|done|..].
    - unfold AuthContext.onAuthStateChanged.
      context_cases (AuthService.getCurrentUser w).
    - unfold AuthContext.register.
      context_cases (AuthService.register e p d w).
    - unfold AuthContext.login.
      context_cases (AuthService.login e p w).
    - unfold AuthContext.logout. context_cases (AuthService.logout w).
    - unfold AuthContext.resetPassword.
      context_cases (AuthService.resetPassword e w).
    - unfold AuthContext.updateProfile.
      context_cases (AuthService.updateUserProfile d w).
    - unfold AuthContext.changePassword.
      context_cases (AuthService.changePassword p p' w). }
  split; [done|].
  unfold AppNavigator.render. rewrite Hl. simpl. by case_match.
Qed.

(** ** Strings, [trim] and the address check *)

Section TextFacts.

Import JsString.

Lemma append_nil_l (s : string) : "" ++ s = s.
Proof. reflexivity. Qed.

Lemma append_cons c (s t : string) : String c s ++ t = String c (s ++ t).
Proof. reflexivity. Qed.

Lemma append_nil_r (s : string) : s ++ "" = s.
Proof. induction s; rewrite ?append_nil_l, ?append_cons; congruence. Qed.

Lemma append_assoc (s t u : string) : (s ++ t) ++ u = s ++ t ++ u.
Proof. induction s; rewrite ?append_nil_l, ?append_cons; congruence. Qed.

Lemma append_eq_nil (s t : string) : s ++ t = "" → s = "" ∧ t = "".
Proof. destruct s; [by rewrite append_nil_l|by rewrite append_cons]. Qed.

Lemma lang_seq_inv a b s :
  lang (Seq a b) s → ∃ s1 s2, s = s1 ++ s2 ∧ lang a s1 ∧ lang b s2.
Proof. inversion 1; eauto. Qed.

Lemma lang_alt_inv a b s : lang (Alt a b) s → lang a s ∨ lang b s.
Proof. inversion 1; eauto. Qed.

Lemma nullable_lang r : nullable r = true ↔ lang r "".
Proof.
  split.
  - induction r; simpl; try done.
    + constructor.
    + intros [Ha Hb]%andb_true_iff. apply (lang_seq _ _ "" ""); auto.
    + intros [Ha|Hb]%orb_true_iff; [apply lang_alt_l|apply lang_alt_r]; auto.
    + constructor.
  - remember "" as s eqn:Hs. induction 1; simpl; try done.
    + apply append_eq_nil in Hs as [-> ->]. rewrite IHlang1, IHlang2; done.
    + rewrite IHlang; done.
    + rewrite IHlang, orb_true_r; done.
Qed.

(** A match of [a*] that starts with [c] starts with a match of [a] that
    starts with [c]. *)
Lemma lang_star_cons_inv a c s :
  lang (Star a) (String c s) →
  ∃ s1 s2, s = s1 ++ s2 ∧ lang a (String c s1) ∧ lang (Star a) s2.
Proof.
  remember (Star a) as r eqn:Hr. remember (String c s) as cs eqn:Hcs.
  intros H. revert Hr Hcs.
  induction H as [| | | | | |a' s1 s2 H1 _ H2 IH2]; try done.
  intros [= ->] Hcs. destruct s1 as [|c1 s1].
  - by apply IH2.
  - rewrite append_cons in Hcs. injection Hcs as -> <-. eauto.
Qed.

Lemma deriv_lang c r s : lang (deriv c r) s ↔ lang r (String c s).
Proof.
  revert s. induction r as [| |p|a IHa b IHb|a IHa b IHb|a IHa]; intros s; simpl.
  - split; inversion 1.
  - split; inversion 1.
  - destruct (p c) eqn:Hp; split; inversion 1; subst.
    + by constructor.
    + constructor.
    + congruence.
  - assert (lang (Seq (deriv c a) b) s ↔
            ∃ s1 s2, s = s1 ++ s2 ∧ lang a (String c s1) ∧ lang b s2) as Hseq.
    { split.
      - inversion 1; subst. eexists _, _. split; [done|]. by rewrite <-IHa.
      - intros (s1 & s2 & -> & H1 & H2). constructor; [by apply IHa|done]. }
    destruct (nullable a) eqn:Hn.
    + split.
      * intros [Hl|Hr]%lang_alt_inv.
        -- apply Hseq in Hl as (s1 & s2 & -> & H1 & H2).
           by apply (lang_seq a b (String c s1) s2).
        -- apply (lang_seq a b "" (String c s)); [by apply nullable_lang|].
           by apply IHb.
      * intros (s1 & s2 & Heq & H1 & H2)%lang_seq_inv.
        destruct s1 as [|c1 s1].
        -- rewrite append_nil_l in Heq. subst. apply lang_alt_r. by apply IHb.
        -- rewrite append_cons in Heq. injection Heq as <- ->.
           apply lang_alt_l, Hseq. eauto.
    + rewrite Hseq. split.
      * intros (s1 & s2 & -> & H1 & H2). by apply (lang_seq a b (String c s1) s2).
      * intros (s1 & s2 & Heq & H1 & H2)%lang_seq_inv.
        destruct s1 as [|c1 s1].
        -- apply nullable_lang in H1. congruence.
        -- rewrite append_cons in Heq. injection Heq as <- ->. eauto.
  - split; inversion 1; subst.
    + apply lang_alt_l. by apply IHa.
    + apply lang_alt_r. by apply IHb.
    + apply lang_alt_l. by apply IHa.
    + apply lang_alt_r. by apply IHb.
  - split.
    + inversion 1; subst. apply (lang_star_cons a (String c _)); [by apply IHa|done].
    + intros (s1 & s2 & -> & H1 & H2)%lang_star_cons_inv.
      constructor; [by apply IHa|done].
Qed.

(** The matcher decides the language. *)
Lemma test_lang r s : test r s = true ↔ lang r s.
Proof.
  revert r. induction s as [|c s IH]; intros r; simpl.
  - apply nullable_lang.
  - rewrite IH. apply deriv_lang.
Qed.

End TextFacts.

Section ScreenFacts.

Import JsString.

Lemma all_chars_app p (s t : string) :
  all_chars p (s ++ t) = all_chars p s && all_chars p t.
Proof.
  induction s as [|c s IH]; [done|].
  rewrite append_cons. simpl. by rewrite IH, andb_assoc.
Qed.

Lemma lang_star_class p s : lang (Star (Class p)) s ↔ all_chars p s = true.
Proof.
  split.
  - remember (Star (Class p)) as r eqn:Hr. intros H. revert Hr.
    induction H as [| | | | | |a s t H1 _ H2 IH2]; try done.
    intros [= ->]. rewrite all_chars_app, (IH2 eq_refl), andb_true_r.
    inversion H1; subst. simpl. by rewrite andb_true_r.
  - induction s as [|c s IH]; simpl; [constructor|].
    intros [Hc Hs]%andb_true_iff.
    apply (lang_star_cons _ (String c "") s); [by constructor|auto].
Qed.

(** [[...]+]: the non-empty strings made of the class. *)
Lemma lang_plus_class p s :
  lang (Plus (Class p)) s ↔ s ≠ "" ∧ all_chars p s = true.
Proof.
  split.
  - intros (s1 & s2 & -> & H1 & H2)%lang_seq_inv.
    inversion H1; subst. apply lang_star_class in H2.
    rewrite append_cons. simpl. split; [done|]. by apply andb_true_iff.
  - intros [Hne Hall]. destruct s as [|c s]; [done|].
    simpl in Hall. apply andb_true_iff in Hall as [Hc Hs].
    apply (lang_seq _ _ (String c "") s); [by constructor|by apply lang_star_class].
Qed.

Lemma lang_char c s : lang (Char c) s ↔ s = String c "".
Proof.
  split.
  - inversion 1; subst. by apply Ascii.eqb_eq in H1 as ->.
  - intros ->. constructor. apply Ascii.eqb_refl.
Qed.

Lemma emailRegex_lang email :
  lang emailRegex email ↔
  ∃ a b c, email = a ++ String at_sign b ++ String full_stop c ∧
           address_part a ∧ address_part b ∧ address_part c.
Proof.
  unfold emailRegex, address_part. split.
  - intros (a & r1 & -> & Ha & H1)%lang_seq_inv.
    apply lang_seq_inv in H1 as (x & r2 & -> & Hx & H2).
    apply lang_seq_inv in H2 as (b & r3 & -> & Hb & H3).
    apply lang_seq_inv in H3 as (y & c & -> & Hy & Hc).
    apply lang_char in Hx as ->. apply lang_char in Hy as ->.
    apply lang_plus_class in Ha, Hb, Hc.
    exists a, b, c. by rewrite !append_cons, !append_nil_l.
  - intros (a & b & c & -> & Ha & Hb & Hc).
    apply lang_plus_class in Ha, Hb, Hc.
    apply lang_seq; [done|].
    apply (lang_seq _ _ (String at_sign "")); [by apply lang_char|].
    apply lang_seq; [done|].
    apply (lang_seq _ _ (String full_stop "")); [by apply lang_char|done].
Qed.

(** X12: [validateEmail] accepts exactly the strings [a@b.c] whose three
    parts are non-empty and contain neither white space nor an at sign
    (the parts after the at sign may contain further full stops). *)
Theorem validateEmail_shape email :
  validateEmail email = true ↔
  ∃ a b c, email = a ++ String at_sign b ++ String full_stop c ∧
           address_part a ∧ address_part b ∧ address_part c.
Proof. unfold validateEmail. rewrite test_lang. apply emailRegex_lang. Qed.

(** *** [trim] *)

Lemma trimStart_nil s : trimStart s = "" ↔ all_chars is_space s = true.
Proof.
  induction s as [|c s IH]; simpl; [done|].
  destruct (is_space c); simpl; [done|]. split; done.
Qed.

Lemma all_chars_trimStart p s :
  all_chars p s = true → all_chars p (trimStart s) = true.
Proof.
  induction s as [|c s IH]; simpl; [done|].
  intros [Hc Hs]%andb_true_iff. destruct (is_space c); simpl; [auto|].
  by rewrite Hc, Hs.
Qed.

Lemma all_chars_rev_app p s t :
  all_chars p (String.rev_app s t) = all_chars p s && all_chars p t.
Proof.
  revert t. induction s as [|c s IH]; intros t; simpl; [done|].
  rewrite IH. simpl. by rewrite andb_assoc, (andb_comm (all_chars p s)).
Qed.

Lemma all_chars_rev p s : all_chars p (String.rev s) = all_chars p s.
Proof. unfold String.rev. by rewrite all_chars_rev_app, andb_true_r. Qed.

Lemma rev_app_nil s t : String.rev_app s t = "" → s = "" ∧ t = "".
Proof.
  revert t. induction s as [|c s IH]; intros t; simpl; [done|].
  by intros [_ [=]]%IH.
Qed.

Lemma rev_nil s : String.rev s = "" ↔ s = "".
Proof.
  split; [|by intros ->]. unfold String.rev. by intros [? _]%rev_app_nil.
Qed.

(** What [trimStart] leaves of a string that is not all white space
    is not all white space. *)
Lemma trimStart_keeps_ink s :
  all_chars is_space s = false → all_chars is_space (trimStart s) = false.
Proof.
  induction s as [|c s IH]; simpl; [done|].
  destruct (is_space c) eqn:Hc; simpl; [done|]. by rewrite Hc.
Qed.

(** A field counts as empty exactly when it is white space throughout. *)
Lemma blank_spec s : blank s = all_chars is_space s.
Proof.
  unfold blank, trim.
  destruct (all_chars is_space s) eqn:Hs.
  - apply trimStart_nil in Hs. by rewrite Hs.
  - apply String.eqb_neq. rewrite rev_nil, trimStart_nil, all_chars_rev.
    by rewrite trimStart_keeps_ink.
Qed.

(** An accepted address is never blank: the [!email.trim()] test before
    [validateEmail] decides nothing. *)
Lemma validateEmail_not_blank email : validateEmail email = true → blank email = false.
Proof.
  unfold validateEmail. rewrite test_lang.
  intros (a & b & c & -> & [Ha Hall] & _)%emailRegex_lang.
  rewrite blank_spec, all_chars_app. destruct a as [|x a]; [done|].
  simpl in *. apply andb_true_iff in Hall as [Hx _].
  unfold ordinary in Hx. by destruct (is_space x).
Qed.

End ScreenFacts.

(** ** The screens' handlers *)

(** X13: [handleRegister] never raises.  On a form that is not acceptable
    (blank name, address not of the shape [a@b.c], password shorter than
    six code units or different from its confirmation, blank diabetes
    type) it shows one alert titled [Error] and does nothing else: the
    provider is not called and no cell changes.  On an acceptable form it
    calls the provider's [register] once, with the name, the diabetes
    type and the current time as [createdAt]; it shows one alert titled
    [Registration Error] exactly when that call is rejected; and it
    leaves [isLoading] off. *)
Theorem handleRegister_guards now f d :
  let r := RegisterScreen.handleRegister now (f, d) in
  let userData := literal [ ("name", VStr (RegisterScreen.name f));
                            ("diabetesType", VStr (RegisterScreen.diabetesType f));
                            ("createdAt", VStr now) ] in
  let q := AuthContext.register (RegisterScreen.email f)
             (RegisterScreen.password f) userData (provider d) in
  r.1 = Ok () ∧
  if acceptable f then
    provider r.2.2 = q.2 ∧
    RegisterScreen.isLoading r.2.1 = false ∧
    alerts r.2.2 =
      (alerts d ++ match q.1 with
                   | Ok _ => []
                   | Err e => [("Registration Error", RegisterScreen.errorMessage e)]
                   end)%list
  else
    provider r.2.2 = provider d ∧ r.2.1 = f ∧
    ∃ message, alerts r.2.2 = (alerts d ++ [("Error", message)])%list.
Proof.
  cbv zeta. unfold RegisterScreen.handleRegister, acceptable,
    RegisterScreen.validatePassword, bind, gets.
  cbv beta iota delta [fst snd].
  destruct (validateEmail (RegisterScreen.email f)) eqn:Hmail;
    [rewrite (validateEmail_not_blank _ Hmail)|rewrite orb_true_r].
  all: destruct (JsString.blank (RegisterScreen.name f)),
         (6 <=? String.length (RegisterScreen.password f))%nat,
         (String.eqb (RegisterScreen.password f) (RegisterScreen.confirmPassword f)),
         (JsString.blank (RegisterScreen.diabetesType f)).
  all: cbn [negb andb orb].
  all: try (split_and!; [done..|by eexists]).
  unfold try_finally, try_catch, bind, useAuth, modify, ret, Alert_alert,
    RegisterScreen.setIsLoading. simpl.
  match goal with |- context [AuthContext.register ?e ?p ?u ?a] =>
    destruct (AuthContext.register e p u a) as [[u1|e1] a1] end; simpl.
  - by rewrite app_nil_r.
  - done.
Qed.

(** X14: [handleResetPassword] never raises.  On an address that is not
    of the shape [a@b.c] it shows one alert titled [Error] and does
    nothing else.  On an accepted address it calls the provider's
    [resetPassword] once; [isEmailSent] is switched on exactly when that
    call resolves, an alert titled [Reset Password Error] is shown exactly
    when it is rejected, and [isLoading] is left off. *)
Theorem handleResetPassword_guards f d :
  let r := ForgotPasswordScreen.handleResetPassword (f, d) in
  let q := AuthContext.resetPassword (ForgotPasswordScreen.email f) (provider d) in
  r.1 = Ok () ∧
  if validateEmail (ForgotPasswordScreen.email f) then
    provider r.2.2 = q.2 ∧
    ForgotPasswordScreen.isLoading r.2.1 = false ∧
    match q.1 with
    | Ok _ =>
        ForgotPasswordScreen.isEmailSent r.2.1 = true ∧ alerts r.2.2 = alerts d
    | Err e =>
        ForgotPasswordScreen.isEmailSent r.2.1 = ForgotPasswordScreen.isEmailSent f ∧
        alerts r.2.2 =
          (alerts d ++ [("Reset Password Error", ForgotPasswordScreen.errorMessage e)])%list
    end
  else
    provider r.2.2 = provider d ∧ r.2.1 = f ∧
    alerts r.2.2 = (alerts d ++ [("Error", "Please enter a valid email address")])%list.
Proof.
  cbv zeta. unfold ForgotPasswordScreen.handleResetPassword, bind, gets. simpl.
  destruct (validateEmail (ForgotPasswordScreen.email f)) eqn:Hmail; simpl.
  2: { by rewrite orb_true_r. }
  rewrite (validateEmail_not_blank _ Hmail). simpl.
  unfold try_finally, try_catch, bind, useAuth, modify, ret, Alert_alert,
    ForgotPasswordScreen.setIsLoading, ForgotPasswordScreen.setIsEmailSent. simpl.
  match goal with |- context [AuthContext.resetPassword ?e ?a] =>
    destruct (AuthContext.resetPassword e a) as [[u1|e1] a1] end; simpl; done.
Qed.

(** X15: [handleLogout] never raises; it shows the alert [Failed to log
    out] exactly when the provider's [logout] is rejected, and the
    provider is left as [logout] left it. *)
Theorem handleLogout_alerts d :
  let r := HomeScreen.handleLogout ((), d) in
  let q := AuthContext.logout (provider d) in
  r.1 = Ok () ∧ provider r.2.2 = q.2 ∧
  alerts r.2.2 =
    (alerts d ++ match q.1 with
                 | Ok _ => []
                 | Err _ => [("Error", "Failed to log out")]
                 end)%list.
Proof.
  cbv zeta. unfold HomeScreen.handleLogout, try_catch, useAuth, Alert_alert, modify.
  simpl. destruct (AuthContext.logout (provider d)) as [[[]|e] a]; simpl.
  - by rewrite app_nil_r.
  - done.
Qed.
